(** * EstateMate Linear tools: a shallow embedding of [linear_client.py]
      and [linear_operations.py], and the properties of their specification.

    Conventions of the embedding.
    - A Python [str] is a [string]; its characters stand for the code points
      0..255 (Latin-1), on which [str.lower], [str.strip] and the regular
      expression class [\d] are written out below.
    - A decoded JSON document is a [json] value; a Python [dict] obtained
      from JSON is the list of its items in insertion order.
    - A function that prints, exits, raises or talks to the service is a
      computation in the monad [M]: it reads the [World] (home directory,
      file system, service) and threads the [Trace] of what the process did
      (requests posted, lines on standard error, documents on standard
      output). *)

From stdpp Require Import base list strings gmap pretty.
From Stdlib Require Import ZArith Lia Ascii.

Open Scope Z_scope.

(* ===================================================================== *)
(** * Python strings *)
(* ===================================================================== *)

Module PyStr.

Definition nl : ascii := ascii_of_N 10.
Definition backslash : ascii := ascii_of_N 92.
Definition dquote : ascii := ascii_of_N 34.

Definition between (lo hi n : N) : bool := ((lo <=? n) && (n <=? hi))%N.

(** [\d] of [re] on a [str] pattern: the decimal digits; below code point
    256 these are '0'..'9'. *)
Definition is_digit (c : ascii) : bool := between 48 57 (N_of_ascii c).

(** [str.isspace] below code point 256. *)
Definition is_space (c : ascii) : bool :=
  let n := N_of_ascii c in
  between 9 13 n || between 28 32 n || (n =? 133)%N || (n =? 160)%N.

(** [str.lower] on one character below code point 256: 'A'..'Z' and the
    Latin-1 capitals 192..222 (215 is the multiplication sign). *)
Definition lower_char (c : ascii) : ascii :=
  let n := N_of_ascii c in
  if between 65 90 n || (between 192 222 n && negb (n =? 215)%N)
  then ascii_of_N (n + 32) else c.

Fixpoint lower (s : string) : string :=
  match s with
  | EmptyString => EmptyString
  | String c s' => String (lower_char c) (lower s')
  end.

Fixpoint lstrip (s : string) : string :=
  match s with
  | EmptyString => EmptyString
  | String c s' => if is_space c then lstrip s' else s
  end.

Fixpoint rstrip (s : string) : string :=
  match s with
  | EmptyString => EmptyString
  | String c s' =>
      match rstrip s' with
      | EmptyString => if is_space c then EmptyString else String c EmptyString
      | r => String c r
      end
  end.

(** [s.strip()] *)
Definition strip (s : string) : string := rstrip (lstrip s).

(** [needle in hay] *)
Fixpoint contains (needle hay : string) : bool :=
  String.prefix needle hay ||
  match hay with
  | EmptyString => false
  | String _ hay' => contains needle hay'
  end.

(** [sep.join(xs)] *)
Fixpoint join (sep : string) (xs : list string) : string :=
  match xs with
  | [] => EmptyString
  | [x] => x
  | x :: xs' => x +:+ sep +:+ join sep xs'
  end.

(** [s.replace(old, new)]: leftmost, non-overlapping occurrences.
    [skip] counts the characters of an occurrence still to be dropped. *)
Fixpoint replace_from (old new : string) (skip : nat) (s : string) : string :=
  match s with
  | EmptyString => EmptyString
  | String c s' =>
      match skip with
      | S k => replace_from old new k s'
      | O =>
          if String.prefix old s
          then new +:+ replace_from old new (Nat.pred (String.length old)) s'
          else String c (replace_from old new 0 s')
      end
  end.

Fixpoint intersperse (new s : string) : string :=
  match s with
  | EmptyString => new
  | String c s' => new +:+ String c (intersperse new s')
  end.

Definition replace (old new s : string) : string :=
  match old with
  | EmptyString => intersperse new s
  | _ => replace_from old new 0 s
  end.

(** Truth value of a [str]. *)
Definition truthy (s : string) : bool :=
  match s with EmptyString => false | _ => true end.

End PyStr.

(* ===================================================================== *)
(** * The regular expression of [validate_date] *)
(* ===================================================================== *)

Module Re.

(** The constructs the pattern [^\d{4}-\d{2}-\d{2}$] uses. *)
Inductive item :=
| Caret                 (* ^      *)
| Digits (n : nat)      (* \d{n}  *)
| Lit (c : ascii)       (* a literal character *)
| Dollar.               (* $      *)

Fixpoint eat_digits (n : nat) (s : string) : option string :=
  match n with
  | O => Some s
  | S k =>
      match s with
      | String c s' => if PyStr.is_digit c then eat_digits k s' else None
      | EmptyString => None
      end
  end.

(** [$] without MULTILINE: the end of the string, or just before a newline
    that is the last character of the string. *)
Definition at_dollar (s : string) : bool :=
  match s with
  | EmptyString => true
  | String c EmptyString => bool_decide (c = PyStr.nl)
  | _ => false
  end.

(** [re.match(pattern, s)] as a truth value: the pattern is matched at the
    start of [s] ([at_start] tells whether the position is still the
    start); the match need not reach the end of [s]. *)
Fixpoint match_here (p : list item) (at_start : bool) (s : string) : bool :=
  match p with
  | [] => true
  | Caret :: p' => at_start && match_here p' at_start s
  | Digits n :: p' =>
      match eat_digits n s with
      | Some s' => match_here p' (at_start && bool_decide (n = O)) s'
      | None => false
      end
  | Lit c :: p' =>
      match s with
      | String d s' => bool_decide (c = d) && match_here p' false s'
      | EmptyString => false
      end
  | Dollar :: p' => at_dollar s && match_here p' at_start s
  end.

Definition re_match (p : list item) (s : string) : bool := match_here p true s.

End Re.

(* ===================================================================== *)
(** * Decoded JSON and the Python operations the scripts apply to it *)
(* ===================================================================== *)

(** What [json.loads] returns: [None], [bool], [int], [str], [list], [dict].
    Numbers with a fraction or an exponent ([float]) are not modelled. *)
#[warnings="-register-all"]
Inductive json :=
| JNull
| JBool (b : bool)
| JInt (n : Z)
| JStr (s : string)
| JArr (xs : list json)
| JObj (items : list (string * json)).

(** How a run of a script (or of one of its functions) ends. *)
Inductive exc := KeyError | AttributeError | TypeError | JSONDecodeError.

Inductive outcome (A : Type) :=
| Ret (a : A)            (* the function returns [a] *)
| Exit (code : Z)        (* [sys.exit(code)] *)
| Raise (e : exc).       (* an exception nothing catches *)
Arguments Ret {A} a.
Arguments Exit {A} code.
Arguments Raise {A} e.

(** The parts of the Python runtime the repository relies on without fixing
    them: the text [str] gives for a list or a dict, and the order in which
    [list(set(xs))] enumerates a set of strings. *)
Class Runtime := {
  py_repr : json → string;
  list_of_set : list string → list string;
  list_of_set_NoDup : ∀ xs, NoDup (list_of_set xs);
  list_of_set_elem : ∀ xs x, x ∈ list_of_set xs ↔ x ∈ xs
}.

Module Py.

(** [d[k]] on the items of a dict, if present. *)
Fixpoint lookup (k : string) (items : list (string * json)) : option json :=
  match items with
  | [] => None
  | (k', v) :: rest => if String.eqb k k' then Some v else lookup k rest
  end.

(** [d.get(k, default)] *)
Definition get (d : json) (k : string) (default : json) : outcome json :=
  match d with
  | JObj items => Ret (match lookup k items with Some v => v | None => default end)
  | _ => Raise AttributeError
  end.

(** [d[k]] for a string [k] *)
Definition item (d : json) (k : string) : outcome json :=
  match d with
  | JObj items =>
      match lookup k items with Some v => Ret v | None => Raise KeyError end
  | _ => Raise TypeError
  end.

(** Truth value, as [if v:] and [not v] take it. *)
Definition truthy (v : json) : bool :=
  match v with
  | JNull => false
  | JBool b => b
  | JInt n => negb (n =? 0)
  | JStr s => PyStr.truthy s
  | JArr xs => match xs with [] => false | _ => true end
  | JObj items => match items with [] => false | _ => true end
  end.

(** [k in v] for a string [k] *)
Definition has (k : string) (v : json) : outcome bool :=
  match v with
  | JObj items => Ret (match lookup k items with Some _ => true | None => false end)
  | JArr xs =>
      Ret (existsb (λ x, match x with JStr s => String.eqb k s | _ => false end) xs)
  | JStr s => Ret (PyStr.contains k s)
  | _ => Raise TypeError
  end.

(** [for x in v]: the values [x] takes. *)
Definition iter (v : json) : outcome (list json) :=
  match v with
  | JArr xs => Ret xs
  | JObj items => Ret (map (λ kv, JStr (fst kv)) items)
  | JStr s => Ret (map (λ c, JStr (String c EmptyString)) (String.list_ascii_of_string s))
  | _ => Raise TypeError
  end.

(** [str(v)], also what an f-string writes for [{v}]. *)
Definition str `{Runtime} (v : json) : string :=
  match v with
  | JNull => "None"
  | JBool true => "True"
  | JBool false => "False"
  | JInt n => pretty n
  | JStr s => s
  | _ => py_repr v
  end.

(** A value used where only a [str] works ([.lower()], [sep.join],
    membership in a set of label ids). *)
Definition as_str (v : json) : outcome string :=
  match v with
  | JStr s => Ret s
  | _ => Raise TypeError
  end.

End Py.

(* ===================================================================== *)
(** * The process: world, trace and the monad of the scripts *)
(* ===================================================================== *)

(** [urllib.request.Request(url, data, headers, method="POST")]; [data] is
    the payload before [json.dumps]. *)
Record Request := {
  rq_url : string;
  rq_data : json;
  rq_headers : list (string * json)
}.

(** What [urlopen] followed by [json.loads] of the body gives. *)
Inductive Reply :=
| HTTPError (code : Z) (reason : string)   (* urllib.error.HTTPError *)
| URLError (reason : string)               (* urllib.error.URLError *)
| NotJson                                  (* a body that is not JSON *)
| Body (result : json).

Inductive file := Garbled | Doc (content : json).

Record World := {
  home : string;                               (* str(Path.home()) *)
  fs : string → option file;                   (* path to file, if it exists *)
  service : list Request → Request → Reply     (* answer, given earlier posts *)
}.

Record Trace := {
  posts : list Request;      (* requests sent, oldest first *)
  stderr : list string;      (* print(..., file=sys.stderr), oldest first *)
  stdout : list json         (* print(json.dumps(...)), oldest first *)
}.

Definition start : Trace := {| posts := []; stderr := []; stdout := [] |}.

Definition M (A : Type) : Type := World → Trace → outcome A * Trace.

Definition ret {A} (a : A) : M A := λ _ t, (Ret a, t).

Definition bind {A B} (m : M A) (k : A → M B) : M B :=
  λ w t,
    match m w t with
    | (Ret a, t') => k a w t'
    | (Exit c, t') => (Exit c, t')
    | (Raise e, t') => (Raise e, t')
    end.

#[global] Instance M_ret : MRet M := @ret.
#[global] Instance M_bind : MBind M := λ A B k m, bind m k.

Definition lift {A} (o : outcome A) : M A := λ _ t, (o, t).
Definition sys_exit {A} (code : Z) : M A := lift (Exit code).
Definition ask : M World := λ w t, (Ret w, t).

(** [print(line, file=sys.stderr)] *)
Definition eprint (line : string) : M unit :=
  λ _ t, (Ret tt, {| posts := posts t; stderr := stderr t ++ [line]; stdout := stdout t |}).

(** [print(json.dumps(doc))] *)
Definition print_json (doc : json) : M unit :=
  λ _ t, (Ret tt, {| posts := posts t; stderr := stderr t; stdout := stdout t ++ [doc] |}).

(** [urlopen(req)] and the decoding of the body. *)
Definition urlopen (req : Request) : M Reply :=
  λ w t, (Ret (service w (posts t) req),
          {| posts := posts t ++ [req]; stderr := stderr t; stdout := stdout t |}).

(** A list comprehension or [for] loop whose body is a computation. *)
Fixpoint for_each {A B} (f : A → M B) (xs : list A) : M (list B) :=
  match xs with
  | [] => mret []
  | x :: xs' => y ← f x; ys ← for_each f xs'; mret (y :: ys)
  end.

(* ===================================================================== *)
(** * linear_client.py *)
(* ===================================================================== *)

Section Client.
Context `{Runtime}.

Definition LINEAR_API_URL : string := "https://api.linear.app/graphql".

Definition CREDENTIALS_FILE (w : World) : string :=
  home w +:+ "/.linear_api/estatemate-product-credentials.json".

Definition CREDENTIALS_HELP (path : string) : list string :=
  [ "CREDENTIALS_MISSING";
    "Create file at " +:+ path +:+ " with:";
    "{" +:+ String PyStr.dquote "api_key" +:+ String PyStr.dquote ": "
      +:+ String PyStr.dquote "lin_api_..." +:+ String PyStr.dquote ", "
      +:+ String PyStr.dquote "team_id" +:+ String PyStr.dquote ": "
      +:+ String PyStr.dquote "..." +:+ String PyStr.dquote ", "
      +:+ String PyStr.dquote "team_key" +:+ String PyStr.dquote ": "
      +:+ String PyStr.dquote "EST2" +:+ String PyStr.dquote "}";
    "";
    "To get your API key:";
    "  1. Go to Linear > Settings > API > Personal API keys";
    "  2. Create a new key with a label like 'CLI scripts'";
    "  3. Copy the key (starts with lin_api_)";
    "";
    "To get your team_id:";
    "  Run: python3 linear_client.py --teams";
    "  (requires api_key to be set, team_id can be placeholder)" ].

Definition load_credentials : M json :=
  w ← ask;
  match fs w (CREDENTIALS_FILE w) with
  | None =>
      _ ← for_each eprint (CREDENTIALS_HELP (CREDENTIALS_FILE w));
      sys_exit 1
  | Some Garbled => lift (Raise JSONDecodeError)
  | Some (Doc creds) => mret creds
  end.

Definition get_headers : M (list (string * json)) :=
  creds ← load_credentials;
  key ← lift (Py.item creds "api_key");
  mret [("Content-Type", JStr "application/json"); ("Authorization", key)].

Definition execute_query (query : string) (variables : option json) : M json :=
  let payload :=
    ("query", JStr query) ::
    match variables with
    | Some v => if Py.truthy v then [("variables", v)] else []
    | None => []
    end in
  headers ← get_headers;
  let req := {| rq_url := LINEAR_API_URL; rq_data := JObj payload;
                rq_headers := headers |} in
  reply ← urlopen req;
  match reply with
  | HTTPError code reason =>
      if code =? 401 then
        _ ← eprint "AUTH_ERROR: Invalid or expired API key";
        _ ← eprint "Check your API key at: Linear > Settings > API > Personal API keys";
        sys_exit 1
      else if code =? 429 then
        _ ← eprint "RATE_LIMITED: Too many requests - wait a moment and try again";
        sys_exit 1
      else
        _ ← eprint ("HTTP_ERROR: " +:+ pretty code +:+ " " +:+ reason);
        sys_exit 1
  | URLError reason =>
      _ ← eprint ("NETWORK_ERROR: <urlopen error " +:+ reason +:+ ">");
      sys_exit 1
  | NotJson => lift (Raise JSONDecodeError)
  | Body result =>
      has_errors ← lift (Py.has "errors" result);
      if (has_errors : bool) then
        errors ← lift (Py.item result "errors");
        es ← lift (Py.iter errors);
        error_msgs ← for_each (λ e, lift (Py.get e "message" (JStr (Py.str e)))) es;
        texts ← for_each (λ m, lift (Py.as_str m)) error_msgs;
        _ ← eprint ("GRAPHQL_ERROR: " +:+ PyStr.join "; " texts);
        sys_exit 1
      else
        lift (Py.get result "data" (JObj []))
  end.

Definition get_team_id : M json :=
  creds ← load_credentials;
  lift (Py.item creds "team_id").

Definition get_team_key : M json :=
  creds ← load_credentials;
  lift (Py.get creds "team_key" (JStr "EST2")).

End Client.

(* ===================================================================== *)
(** * linear_operations.py: constants and pure helpers *)
(* ===================================================================== *)

(** The items of the dict literal [PRIORITY_MAP], in source order. *)
Definition PRIORITY_ITEMS : list (string * Z) :=
  [("urgent", 1); ("high", 2); ("medium", 3); ("low", 4); ("none", 0)].

(** A dict built by inserting items one after the other (a later item
    replaces an earlier one with the same key). *)
Definition dict_of `{Countable K} {V} (items : list (K * V)) : gmap K V :=
  foldl (λ d kv, <[kv.1 := kv.2]> d) ∅ items.

Definition PRIORITY_MAP : gmap string Z := dict_of PRIORITY_ITEMS.

(** [{v: k for k, v in PRIORITY_MAP.items()}] *)
Definition PRIORITY_DISPLAY : gmap Z string :=
  dict_of (map (λ kv, (kv.2, kv.1)) PRIORITY_ITEMS).

(** [PRIORITY_MAP.get(priority.lower(), 0)] *)
Definition priority_value (priority : string) : Z :=
  default 0 (PRIORITY_MAP !! PyStr.lower priority).

(** [PRIORITY_DISPLAY.get(v, "none")] for a decoded JSON value [v]: a dict
    key is looked up by hash and equality, so [True] and [False] are the
    keys 1 and 0, and a list or a dict cannot be a key. *)
Definition PRIORITY_DISPLAY_get (v : json) : outcome string :=
  match v with
  | JInt n => Ret (default "none" (PRIORITY_DISPLAY !! n))
  | JBool b => Ret (default "none" (PRIORITY_DISPLAY !! (if b then 1 else 0)))
  | JNull | JStr _ => Ret "none"
  | JArr _ | JObj _ => Raise TypeError
  end.

Definition escape_graphql (text : string) : string :=
  PyStr.replace (String PyStr.nl EmptyString) (String PyStr.backslash "n")
    (PyStr.replace (String PyStr.dquote EmptyString)
                   (String PyStr.backslash (String PyStr.dquote EmptyString))
       (PyStr.replace (String PyStr.backslash EmptyString)
                      (String PyStr.backslash (String PyStr.backslash EmptyString))
          text)).

Definition DATE_PATTERN : list Re.item :=
  [Re.Caret; Re.Digits 4; Re.Lit "-"; Re.Digits 2; Re.Lit "-"; Re.Digits 2; Re.Dollar].

Definition validate_date (date_str : string) : bool :=
  Re.re_match DATE_PATTERN date_str.

(** ["..."] around a text, as the f-strings write it. *)
Definition quoted (s : string) : string :=
  String PyStr.dquote s +:+ String PyStr.dquote EmptyString.

(** A text of several lines, as a triple-quoted literal holds it. *)
Definition unlines (ls : list string) : string :=
  PyStr.join (String PyStr.nl EmptyString) ls.

(** Truth value of an optional [str] argument ([None] and [""] are false). *)
Definition given (o : option string) : bool :=
  match o with Some s => PyStr.truthy s | None => false end.

(** [v.lower()] on a decoded value. *)
Definition lower_of (v : json) : outcome string :=
  match v with
  | JStr s => Ret (PyStr.lower s)
  | _ => Raise AttributeError
  end.

(** [s.split(sep)] for a one-character separator. *)
Fixpoint split (sep : ascii) (s : string) : list string :=
  match s with
  | EmptyString => [EmptyString]
  | String c s' =>
      if bool_decide (c = sep) then EmptyString :: split sep s'
      else match split sep s' with
           | [] => [String c EmptyString]
           | w :: ws => String c w :: ws
           end
  end.

(** The loop [for x in xs: if test(x): return x], with what it returns when
    it runs to its end being [None]. *)
Fixpoint first_match (test : json → outcome bool) (xs : list json)
  : outcome (option json) :=
  match xs with
  | [] => Ret None
  | x :: xs' =>
      match test x with
      | Ret true => Ret (Some x)
      | Ret false => first_match test xs'
      | Exit c => Exit c
      | Raise e => Raise e
      end
  end.

(** [[x["name"] for x in xs]] followed by [', '.join(...)]. *)
Definition names_of (xs : list json) : M string :=
  available ← for_each (λ x, lift (Py.item x "name")) xs;
  texts ← for_each (λ n, lift (Py.as_str n)) available;
  mret (PyStr.join ", " texts).

(** The test [needle in x["name"].lower()]. *)
Definition name_contains (needle : string) (x : json) : outcome bool :=
  match Py.item x "name" with
  | Ret n =>
      match lower_of n with
      | Ret l => Ret (PyStr.contains needle l)
      | Exit c => Exit c
      | Raise e => Raise e
      end
  | Exit c => Exit c
  | Raise e => Raise e
  end.

(* ===================================================================== *)
(** * linear_operations.py: name resolution *)
(* ===================================================================== *)

Section Operations.
Context `{Runtime}.

(** The query of [get_workflow_states], [get_projects] and [get_labels]:
    the text differs in the connection and in its third field. *)
Definition team_query (team_id : json) (connection third : string) : string :=
  unlines [
    "";
    "    {";
    "        team(id: " +:+ quoted (Py.str team_id) +:+ ") {";
    "            " +:+ connection +:+ " {";
    "                nodes {";
    "                    id";
    "                    name";
    "                    " +:+ third;
    "                }";
    "            }";
    "        }";
    "    }";
    "    " ].

(** [result.get("team", {}).get(connection, {}).get("nodes", [])] *)
Definition team_nodes (result : json) (connection : string) : M json :=
  team ← lift (Py.get result "team" (JObj []));
  conn ← lift (Py.get team connection (JObj []));
  lift (Py.get conn "nodes" (JArr [])).

Definition get_workflow_states : M json :=
  team_id ← get_team_id;
  result ← execute_query (team_query team_id "states" "type") None;
  team_nodes result "states".

Definition not_found (kind name available : string) : string :=
  "ERROR: " +:+ kind +:+ " '" +:+ name +:+ "' not found. Available: " +:+ available.

Definition get_state_id (status_name : string) : M json :=
  states ← get_workflow_states;
  let status_lower := PyStr.lower status_name in
  nodes ← lift (Py.iter states);
  hit ← lift (first_match (name_contains status_lower) nodes);
  match hit with
  | Some state => lift (Py.item state "id")
  | None =>
      available ← names_of nodes;
      _ ← eprint (not_found "Status" status_name available);
      sys_exit 1
  end.

Definition get_projects : M json :=
  team_id ← get_team_id;
  result ← execute_query (team_query team_id "projects" "state") None;
  team_nodes result "projects".

Definition get_project_id (project_name : string) : M json :=
  projects ← get_projects;
  let name_lower := PyStr.lower project_name in
  nodes ← lift (Py.iter projects);
  hit ← lift (first_match (name_contains name_lower) nodes);
  match hit with
  | Some project => lift (Py.item project "id")
  | None =>
      available ← names_of nodes;
      _ ← eprint (not_found "Project" project_name available);
      sys_exit 1
  end.

Definition get_labels : M json :=
  team_id ← get_team_id;
  result ← execute_query (team_query team_id "labels" "color") None;
  team_nodes result "labels".

(** The body of the outer loop of [get_label_ids] for one name. *)
Definition get_label_id (labels : json) (name : string) : M json :=
  let name_lower := PyStr.lower (PyStr.strip name) in
  nodes ← lift (Py.iter labels);
  hit ← lift (first_match (name_contains name_lower) nodes);
  match hit with
  | Some label => lift (Py.item label "id")
  | None =>
      available ← names_of nodes;
      _ ← eprint (not_found "Label" name available);
      sys_exit 1
  end.

Definition get_label_ids (label_names : list string) : M (list json) :=
  labels ← get_labels;
  for_each (get_label_id labels) label_names.

Definition USERS_QUERY : string :=
  unlines [
    "";
    "    {";
    "        users {";
    "            nodes {";
    "                id";
    "                name";
    "                email";
    "                active";
    "            }";
    "        }";
    "    }";
    "    " ].

Definition get_users : M json :=
  result ← execute_query USERS_QUERY None;
  users ← lift (Py.get result "users" (JObj []));
  lift (Py.get users "nodes" (JArr [])).

(** [user.get("active")] as a truth value. *)
Definition is_active (user : json) : outcome bool :=
  match Py.get user "active" JNull with
  | Ret a => Ret (Py.truthy a)
  | Exit c => Exit c
  | Raise e => Raise e
  end.

(** The condition of the loop of [get_user_id]; [and] and [or] evaluate
    their right operand only when needed. *)
Definition user_matches (name_lower : string) (user : json) : outcome bool :=
  match is_active user with
  | Ret true =>
      match name_contains name_lower user with
      | Ret true => Ret true
      | Ret false =>
          match Py.get user "email" (JStr "") with
          | Ret e =>
              match lower_of e with
              | Ret l => Ret (PyStr.contains name_lower l)
              | Exit c => Exit c
              | Raise x => Raise x
              end
          | Exit c => Exit c
          | Raise x => Raise x
          end
      | Exit c => Exit c
      | Raise x => Raise x
      end
  | Ret false => Ret false
  | Exit c => Exit c
  | Raise x => Raise x
  end.

(** [[u for u in users if u.get("active")]] *)
Fixpoint active_users (users : list json) : outcome (list json) :=
  match users with
  | [] => Ret []
  | u :: rest =>
      match is_active u with
      | Ret a =>
          match active_users rest with
          | Ret us => Ret (if a then u :: us else us)
          | Exit c => Exit c
          | Raise x => Raise x
          end
      | Exit c => Exit c
      | Raise x => Raise x
      end
  end.

Definition get_user_id (user_name : string) : M json :=
  users ← get_users;
  let name_lower := PyStr.lower user_name in
  nodes ← lift (Py.iter users);
  hit ← lift (first_match (user_matches name_lower) nodes);
  match hit with
  | Some user => lift (Py.item user "id")
  | None =>
      actives ← lift (active_users nodes);
      available ← names_of actives;
      _ ← eprint (not_found "User" user_name available);
      sys_exit 1
  end.

Definition issue_id_query (identifier : string) : string :=
  unlines [
    "";
    "    {";
    "        issue(id: " +:+ quoted identifier +:+ ") {";
    "            id";
    "        }";
    "    }";
    "    " ].

Definition issue_not_found (identifier : string) : string :=
  "ERROR: Issue '" +:+ identifier +:+ "' not found".

Definition get_issue_id (identifier : string) : M json :=
  result ← execute_query (issue_id_query identifier) None;
  issue ← lift (Py.get result "issue" JNull);
  if negb (Py.truthy issue) then
    _ ← eprint (issue_not_found identifier);
    sys_exit 1
  else lift (Py.item issue "id").

Definition issue_labels_query (identifier : string) : string :=
  unlines [
    "";
    "    {";
    "        issue(id: " +:+ quoted identifier +:+ ") {";
    "            id";
    "            identifier";
    "            labels {";
    "                nodes {";
    "                    id";
    "                    name";
    "                }";
    "            }";
    "        }";
    "    }";
    "    " ].

Definition get_issue_with_labels (identifier : string) : M json :=
  result ← execute_query (issue_labels_query identifier) None;
  issue ← lift (Py.get result "issue" JNull);
  if negb (Py.truthy issue) then
    _ ← eprint (issue_not_found identifier);
    sys_exit 1
  else mret issue.

End Operations.

(* ===================================================================== *)
(** * linear_operations.py: the operations *)
(* ===================================================================== *)

Section Crud.
Context `{Runtime}.

Definition jget (d : json) (k : string) : M json := lift (Py.get d k JNull).
Definition jget_or (d : json) (k : string) (default : json) : M json :=
  lift (Py.get d k default).
Definition jitem (d : json) (k : string) : M json := lift (Py.item d k).

(** [if arg: input_fields.append(make(arg))] for an optional [str]. *)
Definition field_if (arg : option string) (make : string → M string)
    (input_fields : list string) : M (list string) :=
  match arg with
  | Some s =>
      if PyStr.truthy s then f ← make s; mret (input_fields ++ [f])
      else mret input_fields
  | None => mret input_fields
  end.

(** [", ".join([f'"{lid}"' for lid in label_ids])] *)
Definition ids_str_of (label_ids : list json) : string :=
  PyStr.join ", " (map (λ lid, quoted (Py.str lid)) label_ids).

(** [if labels: ... input_fields.append(f'labelIds: [{ids_str}]')] *)
Definition labels_field (labels : option (list string))
    (input_fields : list string) : M (list string) :=
  match labels with
  | Some (n :: ns) =>
      label_ids ← get_label_ids (n :: ns);
      mret (input_fields ++ ["labelIds: [" +:+ ids_str_of label_ids +:+ "]"])
  | _ => mret input_fields
  end.

Definition due_date_field (due_date : string) : M string :=
  if negb (validate_date due_date) then
    _ ← eprint ("ERROR: Invalid date format '" +:+ due_date +:+ "'. Use YYYY-MM-DD");
    sys_exit 1
  else mret ("dueDate: " +:+ quoted due_date).

Definition priority_field (priority : string) : M string :=
  mret ("priority: " +:+ pretty (priority_value priority)).

Definition text_field (key : string) (text : string) : M string :=
  mret (key +:+ ": " +:+ quoted (escape_graphql text)).

Definition id_field (key : string) (resolve : string → M json) (name : string)
  : M string :=
  id ← resolve name;
  mret (key +:+ ": " +:+ quoted (Py.str id)).

(** [if issue.get(key): output[out_key] = issue[key][sub]] *)
Definition copy_sub (issue : json) (key sub out_key : string)
    (output : list (string * json)) : M (list (string * json)) :=
  v ← jget issue key;
  if Py.truthy v then
    o ← jitem issue key;
    x ← jitem o sub;
    mret (output ++ [(out_key, x)])
  else mret output.

(** [if issue.get("labels", {}).get("nodes"):
       output["labels"] = [l["name"] for l in issue["labels"]["nodes"]]] *)
Definition copy_labels (issue : json) (output : list (string * json))
  : M (list (string * json)) :=
  ls ← jget_or issue "labels" (JObj []);
  ns ← jget ls "nodes";
  if Py.truthy ns then
    ls' ← jitem issue "labels";
    ns' ← jitem ls' "nodes";
    xs ← lift (Py.iter ns');
    names ← for_each (λ l, jitem l "name") xs;
    mret (output ++ [("labels", JArr names)])
  else mret output.

(** [if issue.get("dueDate"): output["due_date"] = issue["dueDate"]] *)
Definition copy_due_date (issue : json) (output : list (string * json))
  : M (list (string * json)) :=
  v ← jget issue "dueDate";
  if Py.truthy v then
    d ← jitem issue "dueDate";
    mret (output ++ [("due_date", d)])
  else mret output.

(** [issue.get("state", {}).get("name")] *)
Definition status_of (issue : json) : M json :=
  st ← jget_or issue "state" (JObj []);
  jget st "name".

(** [PRIORITY_DISPLAY.get(issue.get("priority"), "none")] *)
Definition priority_of (issue : json) : M json :=
  p ← jget issue "priority";
  label ← lift (PRIORITY_DISPLAY_get p);
  mret (JStr label).

Definition failure (message : string) : M unit :=
  _ ← print_json (JObj [("success", JBool false); ("error", JStr message)]);
  sys_exit 1.

Definition create_mutation (input_str : string) : string :=
  unlines [
    "";
    "    mutation {";
    "        issueCreate(input: {" +:+ input_str +:+ "}) {";
    "            success";
    "            issue {";
    "                id";
    "                identifier";
    "                title";
    "                url";
    "                parent {";
    "                    identifier";
    "                }";
    "                labels {";
    "                    nodes {";
    "                        name";
    "                    }";
    "                }";
    "                dueDate";
    "                assignee {";
    "                    name";
    "                }";
    "            }";
    "        }";
    "    }";
    "    " ].

Definition create_issue (title : string)
    (description priority project parent : option string)
    (labels : option (list string))
    (due_date assignee status : option string) : M unit :=
  team_id ← get_team_id;
  let title_escaped := escape_graphql title in
  let input_fields :=
    ["teamId: " +:+ quoted (Py.str team_id); "title: " +:+ quoted title_escaped] in
  input_fields ← field_if description (text_field "description") input_fields;
  input_fields ← field_if priority priority_field input_fields;
  input_fields ← field_if project (id_field "projectId" get_project_id) input_fields;
  input_fields ← field_if parent (id_field "parentId" get_issue_id) input_fields;
  input_fields ← labels_field labels input_fields;
  input_fields ← field_if due_date due_date_field input_fields;
  input_fields ← field_if assignee (id_field "assigneeId" get_user_id) input_fields;
  input_fields ← field_if status (id_field "stateId" get_state_id) input_fields;
  let input_str := PyStr.join ", " input_fields in
  result ← execute_query (create_mutation input_str) None;
  issue_data ← jget_or result "issueCreate" (JObj []);
  success ← jget issue_data "success";
  if Py.truthy success then
    issue ← jget_or issue_data "issue" (JObj []);
    identifier ← jget issue "identifier";
    title' ← jget issue "title";
    url ← jget issue "url";
    let output := [("success", JBool true); ("identifier", identifier);
                   ("title", title'); ("url", url)] in
    output ← copy_sub issue "parent" "identifier" "parent" output;
    output ← copy_labels issue output;
    output ← copy_due_date issue output;
    output ← copy_sub issue "assignee" "name" "assignee" output;
    print_json (JObj output)
  else failure "Failed to create issue".

Definition update_mutation (issue_id : json) (input_str : string) : string :=
  unlines [
    "";
    "    mutation {";
    "        issueUpdate(id: " +:+ quoted (Py.str issue_id) +:+ ", input: {"
      +:+ input_str +:+ "}) {";
    "            success";
    "            issue {";
    "                id";
    "                identifier";
    "                title";
    "                state {";
    "                    name";
    "                }";
    "                priority";
    "                url";
    "                parent {";
    "                    identifier";
    "                }";
    "                project {";
    "                    name";
    "                }";
    "                labels {";
    "                    nodes {";
    "                        name";
    "                    }";
    "                }";
    "                dueDate";
    "                assignee {";
    "                    name";
    "                }";
    "            }";
    "        }";
    "    }";
    "    " ].

(** The report [update_issue] prints after the mutation. *)
Definition update_report (result : json) : M unit :=
  update_data ← jget_or result "issueUpdate" (JObj []);
  success ← jget update_data "success";
  if Py.truthy success then
    issue ← jget_or update_data "issue" (JObj []);
    identifier' ← jget issue "identifier";
    title' ← jget issue "title";
    status' ← status_of issue;
    priority' ← priority_of issue;
    url ← jget issue "url";
    let output := [("success", JBool true); ("identifier", identifier');
                   ("title", title'); ("status", status');
                   ("priority", priority'); ("url", url)] in
    output ← copy_sub issue "parent" "identifier" "parent" output;
    output ← copy_sub issue "project" "name" "project" output;
    output ← copy_labels issue output;
    output ← copy_due_date issue output;
    output ← copy_sub issue "assignee" "name" "assignee" output;
    print_json (JObj output)
  else failure "Failed to update issue".

Definition update_issue (identifier : string)
    (status priority title description project parent : option string)
    (labels : option (list string))
    (due_date assignee : option string) : M unit :=
  issue_id ← get_issue_id identifier;
  let input_fields : list string := [] in
  input_fields ← field_if status (id_field "stateId" get_state_id) input_fields;
  input_fields ← field_if priority priority_field input_fields;
  input_fields ← field_if title (text_field "title") input_fields;
  input_fields ← field_if description (text_field "description") input_fields;
  input_fields ← field_if project (id_field "projectId" get_project_id) input_fields;
  input_fields ← field_if parent (id_field "parentId" get_issue_id) input_fields;
  input_fields ← labels_field labels input_fields;
  input_fields ← field_if due_date due_date_field input_fields;
  input_fields ← field_if assignee (id_field "assigneeId" get_user_id) input_fields;
  match input_fields with
  | [] =>
      _ ← eprint "ERROR: No updates specified.";
      sys_exit 1
  | _ =>
      let input_str := PyStr.join ", " input_fields in
      result ← execute_query (update_mutation issue_id input_str) None;
      update_report result
  end.

End Crud.

Section Crud2.
Context `{Runtime}.

(** The text a filter on a name adds:
    [key: { name: { containsIgnoreCase: "text" } }]. *)
Definition name_filter (key text : string) : M string :=
  mret (key +:+ ": { name: { containsIgnoreCase: "
            +:+ quoted (escape_graphql text) +:+ " } }").

Definition priority_filter (priority : string) : M string :=
  mret ("priority: { eq: " +:+ pretty (priority_value priority) +:+ " }").

(** [filter_clause] of [list_issues]. *)
Definition filter_clause_of (filters : list string) : string :=
  let filter_str := match filters with [] => "" | _ => PyStr.join ", " filters end in
  if PyStr.truthy filter_str then ", filter: { " +:+ filter_str +:+ " }" else "".

Definition list_query (team_id : json) (limit : Z) (filter_clause : string) : string :=
  unlines [
    "";
    "    {";
    "        team(id: " +:+ quoted (Py.str team_id) +:+ ") {";
    "            issues(first: " +:+ pretty limit +:+ ", orderBy: updatedAt"
      +:+ filter_clause +:+ ") {";
    "                nodes {";
    "                    identifier";
    "                    title";
    "                    priority";
    "                    dueDate";
    "                    state {";
    "                        name";
    "                    }";
    "                    project {";
    "                        name";
    "                    }";
    "                    assignee {";
    "                        name";
    "                    }";
    "                    labels {";
    "                        nodes {";
    "                            name";
    "                        }";
    "                    }";
    "                    parent {";
    "                        identifier";
    "                    }";
    "                    url";
    "                }";
    "            }";
    "        }";
    "    }";
    "    " ].

(** The filters [list_issues] collects, in order. *)
Definition list_filters (status project priority label assignee : option string)
  : M (list string) :=
  let filters : list string := [] in
  filters ← field_if status (name_filter "state") filters;
  filters ← field_if project (name_filter "project") filters;
  filters ← field_if priority priority_filter filters;
  filters ← field_if label (name_filter "labels") filters;
  filters ← field_if assignee (name_filter "assignee") filters;
  mret filters.

(** One entry of the output of [list_issues]. *)
Definition list_item (issue : json) : M json :=
  identifier ← jitem issue "identifier";
  title ← jitem issue "title";
  status ← status_of issue;
  priority ← priority_of issue;
  url ← jitem issue "url";
  let item := [("identifier", identifier); ("title", title); ("status", status);
               ("priority", priority); ("url", url)] in
  item ← copy_sub issue "project" "name" "project" item;
  item ← copy_sub issue "assignee" "name" "assignee" item;
  item ← copy_labels issue item;
  item ← copy_sub issue "parent" "identifier" "parent" item;
  item ← copy_due_date issue item;
  mret (JObj item).

Definition list_issues (status project priority label assignee : option string)
    (limit : Z) : M unit :=
  team_id ← get_team_id;
  filters ← list_filters status project priority label assignee;
  let filter_clause := filter_clause_of filters in
  result ← execute_query (list_query team_id limit filter_clause) None;
  team ← jget_or result "team" (JObj []);
  conn ← jget_or team "issues" (JObj []);
  issues ← jget_or conn "nodes" (JArr []);
  nodes ← lift (Py.iter issues);
  output ← for_each list_item nodes;
  print_json (JArr output).

Definition labels_mutation (issue_id : json) (ids_str : string) : string :=
  unlines [
    "";
    "    mutation {";
    "        issueUpdate(id: " +:+ quoted (Py.str issue_id) +:+ ", input: {labelIds: ["
      +:+ ids_str +:+ "]}) {";
    "            success";
    "            issue {";
    "                identifier";
    "                labels {";
    "                    nodes {";
    "                        name";
    "                    }";
    "                }";
    "            }";
    "        }";
    "    }";
    "    " ].

(** [[l["id"] for l in issue.get("labels", {}).get("nodes", [])]] *)
Definition current_ids_of (issue : json) : M (list json) :=
  ls ← jget_or issue "labels" (JObj []);
  ns ← jget_or ls "nodes" (JArr []);
  xs ← lift (Py.iter ns);
  for_each (λ l, jitem l "id") xs.

(** The label ids as members of a set: the service's ids are strings, and
    the model stops with [TypeError] on any other value (Python does so
    for lists and dicts only, which cannot be hashed). *)
Definition hashed (ids : list json) : M (list string) :=
  for_each (λ lid, lift (Py.as_str lid)) ids.

(** The report both label operations print after the mutation. *)
Definition labels_report (result : json) (message : string) : M unit :=
  update_data ← jget_or result "issueUpdate" (JObj []);
  success ← jget update_data "success";
  if Py.truthy success then
    issue ← jget_or update_data "issue" (JObj []);
    identifier ← jget issue "identifier";
    ls ← jget_or issue "labels" (JObj []);
    ns ← jget_or ls "nodes" (JArr []);
    xs ← lift (Py.iter ns);
    names ← for_each (λ l, jitem l "name") xs;
    print_json (JObj [("success", JBool true); ("identifier", identifier);
                      ("labels", JArr names)])
  else failure message.

(** [list(set(current_label_ids + new_label_ids))] *)
Definition all_label_ids_of (current_label_ids new_label_ids : list json)
  : M (list string) :=
  ids ← hashed (current_label_ids ++ new_label_ids);
  mret (list_of_set ids).

Definition add_labels_to_issue (identifier : string) (label_names : list string)
  : M unit :=
  issue ← get_issue_with_labels identifier;
  issue_id ← jitem issue "id";
  current_label_ids ← current_ids_of issue;
  new_label_ids ← get_label_ids label_names;
  all_label_ids ← all_label_ids_of current_label_ids new_label_ids;
  let ids_str := PyStr.join ", " (map quoted all_label_ids) in
  result ← execute_query (labels_mutation issue_id ids_str) None;
  labels_report result "Failed to add labels".

(** [[lid for lid in current_label_ids if lid not in remove_ids]] with
    [remove_ids = set(get_label_ids(label_names))]. *)
Definition remaining_ids_of (current_label_ids removed : list json)
  : M (list string) :=
  removed' ← hashed removed;
  let remove_ids : gset string := list_to_set removed' in
  current ← hashed current_label_ids;
  mret (filter (λ lid, lid ∉ remove_ids) current).

Definition remove_labels_from_issue (identifier : string) (label_names : list string)
  : M unit :=
  issue ← get_issue_with_labels identifier;
  issue_id ← jitem issue "id";
  current_label_ids ← current_ids_of issue;
  removed ← get_label_ids label_names;
  remaining_ids ← remaining_ids_of current_label_ids removed;
  let ids_str :=
    match remaining_ids with
    | [] => ""
    | _ => PyStr.join ", " (map quoted remaining_ids)
    end in
  result ← execute_query (labels_mutation issue_id ids_str) None;
  labels_report result "Failed to remove labels".

Definition comment_mutation (issue_id : json) (body_escaped : string) : string :=
  unlines [
    "";
    "    mutation {";
    "        commentCreate(input: {issueId: " +:+ quoted (Py.str issue_id)
      +:+ ", body: " +:+ quoted body_escaped +:+ "}) {";
    "            success";
    "            comment {";
    "                id";
    "                body";
    "                createdAt";
    "            }";
    "        }";
    "    }";
    "    " ].

Definition add_comment (identifier body : string) : M unit :=
  issue_id ← get_issue_id identifier;
  let body_escaped := escape_graphql body in
  result ← execute_query (comment_mutation issue_id body_escaped) None;
  comment_data ← jget_or result "commentCreate" (JObj []);
  success ← jget comment_data "success";
  if Py.truthy success then
    comment ← jget_or comment_data "comment" (JObj []);
    id ← jget comment "id";
    created ← jget comment "createdAt";
    print_json (JObj [("success", JBool true); ("comment_id", id);
                      ("created_at", created)])
  else failure "Failed to add comment".

Definition archive_mutation (issue_id : json) : string :=
  unlines [
    "";
    "    mutation {";
    "        issueArchive(id: " +:+ quoted (Py.str issue_id) +:+ ") {";
    "            success";
    "        }";
    "    }";
    "    " ].

Definition archive_issue (identifier : string) : M unit :=
  issue_id ← get_issue_id identifier;
  result ← execute_query (archive_mutation issue_id) None;
  archive_data ← jget_or result "issueArchive" (JObj []);
  success ← jget archive_data "success";
  if Py.truthy success then
    print_json (JObj [("success", JBool true);
                      ("message", JStr ("Issue " +:+ identifier +:+ " archived"))])
  else failure "Failed to archive issue".

End Crud2.

Section Crud3.
Context `{Runtime}.

Definition get_query (identifier : string) : string :=
  unlines [
    "";
    "    {";
    "        issue(id: " +:+ quoted identifier +:+ ") {";
    "            id";
    "            identifier";
    "            title";
    "            description";
    "            priority";
    "            dueDate";
    "            state {";
    "                name";
    "                type";
    "            }";
    "            project {";
    "                name";
    "            }";
    "            parent {";
    "                identifier";
    "                title";
    "            }";
    "            children {";
    "                nodes {";
    "                    identifier";
    "                    title";
    "                    state {";
    "                        name";
    "                    }";
    "                }";
    "            }";
    "            assignee {";
    "                name";
    "                email";
    "            }";
    "            labels {";
    "                nodes {";
    "                    id";
    "                    name";
    "                    color";
    "                }";
    "            }";
    "            comments {";
    "                nodes {";
    "                    body";
    "                    createdAt";
    "                    user {";
    "                        name";
    "                    }";
    "                }";
    "            }";
    "            url";
    "            createdAt";
    "            updatedAt";
    "        }";
    "    }";
    "    " ].

(** [issue.get(key, {}).get("name") if issue.get(key) else None] *)
Definition name_or_none (issue : json) (key : string) : M json :=
  v ← jget issue key;
  if Py.truthy v then
    o ← jget_or issue key (JObj []);
    jget o "name"
  else mret JNull.

Definition child_entry (c : json) : M json :=
  identifier ← jitem c "identifier";
  title ← jitem c "title";
  status ← status_of c;
  mret (JObj [("identifier", identifier); ("title", title); ("status", status)]).

Definition comment_entry (c : json) : M json :=
  body ← jget c "body";
  user ← jget_or c "user" (JObj []);
  author ← jget user "name";
  created ← jget c "createdAt";
  mret (JObj [("body", body); ("author", author); ("created_at", created)]).

(** [if issue.get("parent"): output["parent"] = {...}] *)
Definition copy_parent (issue : json) (output : list (string * json))
  : M (list (string * json)) :=
  parent ← jget issue "parent";
  if Py.truthy parent then
    p ← jitem issue "parent";
    pid ← jitem p "identifier";
    p' ← jitem issue "parent";
    ptitle ← jitem p' "title";
    mret (output ++ [("parent", JObj [("identifier", pid); ("title", ptitle)])])
  else mret output.

(** [if issue.get("children", {}).get("nodes"): output["children"] = [...]] *)
Definition copy_children (issue : json) (output : list (string * json))
  : M (list (string * json)) :=
  children ← jget_or issue "children" (JObj []);
  kids ← jget children "nodes";
  if Py.truthy kids then
    ch ← jitem issue "children";
    ns ← jitem ch "nodes";
    cs ← lift (Py.iter ns);
    entries ← for_each child_entry cs;
    mret (output ++ [("children", JArr entries)])
  else mret output.

(** The document [get_issue] prints for the issue it found. *)
Definition issue_report (issue : json) : M unit :=
  identifier' ← jget issue "identifier";
  title ← jget issue "title";
  description ← jget issue "description";
  status ← status_of issue;
  priority ← priority_of issue;
  project ← name_or_none issue "project";
  assignee ← name_or_none issue "assignee";
  url ← jget issue "url";
  created ← jget issue "createdAt";
  updated ← jget issue "updatedAt";
  let output := [("identifier", identifier'); ("title", title);
                 ("description", description); ("status", status);
                 ("priority", priority); ("project", project);
                 ("assignee", assignee); ("url", url);
                 ("created_at", created); ("updated_at", updated)] in
  output ← copy_parent issue output;
  output ← copy_children issue output;
  output ← copy_labels issue output;
  output ← copy_due_date issue output;
  comments ← jget_or issue "comments" (JObj []);
  cnodes ← jget_or comments "nodes" (JArr []);
  cs ← lift (Py.iter cnodes);
  entries ← for_each comment_entry cs;
  print_json (JObj (output ++ [("comments", JArr entries)])).

Definition get_issue (identifier : string) : M unit :=
  result ← execute_query (get_query identifier) None;
  issue ← jget result "issue";
  if negb (Py.truthy issue) then
    _ ← eprint (issue_not_found identifier);
    sys_exit 1
  else issue_report issue.

(** The namespace [parser.parse_args()] returns. *)
Record Args := {
  a_create : bool;
  a_update : option string;
  a_list : bool;
  a_add_labels : option string;
  a_remove_labels : option string;
  a_comment : option string;
  a_archive : option string;
  a_get : option string;
  a_title : option string;
  a_description : option string;
  a_priority : option string;
  a_project : option string;
  a_status : option string;
  a_parent : option string;
  a_labels : option string;
  a_due_date : option string;
  a_assignee : option string;
  a_body : option string;
  a_label : option string;
  a_limit : Z
}.

(** [parser.error(message)]: argparse writes its usage text and the
    message to standard error and exits with status 2; the model keeps the
    message. *)
Definition parser_error {A} (message : string) : M A :=
  _ ← eprint message;
  sys_exit 2.

(** [[l.strip() for l in args.labels.split(",")] if args.labels else None] *)
Definition label_list_of (labels : option string) : option (list string) :=
  match labels with
  | Some s => if PyStr.truthy s then Some (map PyStr.strip (split "," s)) else None
  | None => None
  end.

Definition nonempty (l : option (list string)) : bool :=
  match l with Some (_ :: _) => true | _ => false end.

(** The part of [main] after [parse_args]. *)
Definition main (args : Args) : M unit :=
  let label_list := label_list_of (a_labels args) in
  if a_create args then
    match a_title args with
    | Some title =>
        if PyStr.truthy title then
          create_issue title (a_description args) (a_priority args) (a_project args)
            (a_parent args) label_list (a_due_date args) (a_assignee args)
            (a_status args)
        else parser_error "--create requires --title"
    | None => parser_error "--create requires --title"
    end
  else if given (a_update args) then
    update_issue (default "" (a_update args)) (a_status args) (a_priority args)
      (a_title args) (a_description args) (a_project args) (a_parent args)
      label_list (a_due_date args) (a_assignee args)
  else if a_list args then
    list_issues (a_status args) (a_project args) (a_priority args) (a_label args)
      (a_assignee args) (a_limit args)
  else if given (a_add_labels args) then
    if negb (nonempty label_list) then parser_error "--add-labels requires --labels"
    else add_labels_to_issue (default "" (a_add_labels args)) (default [] label_list)
  else if given (a_remove_labels args) then
    if negb (nonempty label_list) then parser_error "--remove-labels requires --labels"
    else remove_labels_from_issue (default "" (a_remove_labels args))
           (default [] label_list)
  else if given (a_comment args) then
    match a_body args with
    | Some body =>
        if PyStr.truthy body then add_comment (default "" (a_comment args)) body
        else parser_error "--comment requires --body"
    | None => parser_error "--comment requires --body"
    end
  else if given (a_archive args) then archive_issue (default "" (a_archive args))
  else if given (a_get args) then get_issue (default "" (a_get args))
  else mret tt.

End Crud3.

(** A runtime to run the model with: [list(set(xs))] enumerates the members
    in the order of their last occurrence in [xs], and a container prints as
    a fixed text. *)
Definition example_runtime : Runtime := {|
  py_repr := λ _, "<container>";
  list_of_set := remove_dups;
  list_of_set_NoDup := NoDup_remove_dups;
  list_of_set_elem := λ xs x, elem_of_remove_dups xs x
|}.

(* ===================================================================== *)
(** * Definitions the statements are written with *)
(* ===================================================================== *)

Definition PRIORITY_LABELS : list string := ["urgent"; "high"; "medium"; "low"; "none"].

(** ** Example worlds *)

Module Example.

Definition creds : json :=
  JObj [("api_key", JStr "lin_api_k"); ("team_id", JStr "team-1");
        ("team_key", JStr "EST2")].

Definition home_dir : string := "/home/ana".

Definition with_credentials (path : string) : option file :=
  if String.eqb path "/home/ana/.linear_api/estatemate-product-credentials.json"
  then Some (Doc creds) else None.

(** No credentials file; the service would answer anything with [null]. *)
Definition bare : World :=
  {| home := home_dir; fs := λ _, None; service := λ _ _, Body JNull |}.

(** Credentials in place and a service that gives the same reply always. *)
Definition always (reply : Reply) : World :=
  {| home := home_dir; fs := with_credentials; service := λ _ _, reply |}.


Definition data (items : list (string * json)) : Reply :=
  Body (JObj [("data", JObj items)]).

Definition key : json := JStr "lin_api_k".

End Example.

Section Statements.
Context `{Runtime}.

(** ** Dates *)

(** The shape the specification asks for: four digits, a dash, two digits,
    a dash, two digits, and nothing else. *)
Definition is_date_shape (s : string) : bool :=
  match String.list_ascii_of_string s with
  | [y1; y2; y3; y4; d1; m1; m2; d2; a1; a2] =>
      forallb PyStr.is_digit [y1; y2; y3; y4; m1; m2; a1; a2]
      && bool_decide (d1 = "-"%char) && bool_decide (d2 = "-"%char)
  | _ => false
  end.

Definition newline : string := String PyStr.nl EmptyString.

(** [s] is [d] followed by one newline, with [d] of the date shape. *)
Definition is_date_shape_then_newline (s : string) : bool :=
  match String.list_ascii_of_string s with
  | [y1; y2; y3; y4; d1; m1; m2; d2; a1; a2; n] =>
      is_date_shape (String.string_of_list_ascii [y1; y2; y3; y4; d1; m1; m2; d2; a1; a2])
      && bool_decide (n = PyStr.nl)
  | _ => false
  end.

(** ** Escaped text *)




(** ** Traces and runs *)

(** The trace after more lines on standard error, and after one more post. *)
Definition log_err (lines : list string) (t : Trace) : Trace :=
  {| posts := posts t; stderr := stderr t ++ lines; stdout := stdout t |}.

Definition log_post (r : Request) (t : Trace) : Trace :=
  {| posts := posts t ++ [r]; stderr := stderr t; stdout := stdout t |}.

(** What is left of a run once the credentials file is found missing. *)
Definition missing_credentials {A} (w : World) (t : Trace) : outcome A * Trace :=
  (Exit 1, log_err (CREDENTIALS_HELP (CREDENTIALS_FILE w)) t).

(** The request [execute_query] builds. *)
Definition request_of (query : string) (variables : option json) (key : json)
  : Request :=
  {| rq_url := LINEAR_API_URL;
     rq_data := JObj (("query", JStr query) ::
                      match variables with
                      | Some v => if Py.truthy v then [("variables", v)] else []
                      | None => []
                      end);
     rq_headers := [("Content-Type", JStr "application/json");
                    ("Authorization", key)] |}.

(** What [execute_query] does with the reply. *)
Definition on_reply (reply : Reply) : M json :=
  match reply with
  | HTTPError code reason =>
      if code =? 401 then
        _ ← eprint "AUTH_ERROR: Invalid or expired API key";
        _ ← eprint "Check your API key at: Linear > Settings > API > Personal API keys";
        sys_exit 1
      else if code =? 429 then
        _ ← eprint "RATE_LIMITED: Too many requests - wait a moment and try again";
        sys_exit 1
      else
        _ ← eprint ("HTTP_ERROR: " +:+ pretty code +:+ " " +:+ reason);
        sys_exit 1
  | URLError reason =>
      _ ← eprint ("NETWORK_ERROR: <urlopen error " +:+ reason +:+ ">");
      sys_exit 1
  | NotJson => lift (Raise JSONDecodeError)
  | Body result =>
      has_errors ← lift (Py.has "errors" result);
      if (has_errors : bool) then
        errors ← lift (Py.item result "errors");
        es ← lift (Py.iter errors);
        error_msgs ← for_each (λ e, lift (Py.get e "message" (JStr (Py.str e)))) es;
        texts ← for_each (λ m, lift (Py.as_str m)) error_msgs;
        _ ← eprint ("GRAPHQL_ERROR: " +:+ PyStr.join "; " texts);
        sys_exit 1
      else
        lift (Py.get result "data" (JObj []))
  end.

(** [quiet m]: a run of [m] sends no request. *)
Definition quiet {A} (m : M A) : Prop := ∀ w t, posts (m w t).2 = posts t.

(** [exits_one m]: whenever [m] ends in [sys.exit], the status is 1. *)
Definition exits_one {A} (m : M A) : Prop :=
  ∀ w t c t', m w t = (Exit c, t') → c = 1.

(** [silent m]: a run of [m] leaves the whole trace as it was. *)
Definition silent {A} (m : M A) : Prop := ∀ w t, (m w t).2 = t.

(** ** Failed requests *)

(** The message of one entry of a GraphQL [errors] list: the entry is an
    object; its ["message"], if it has one, is a string; without one the
    entry itself is printed. *)
Definition error_text (e : json) : option string :=
  match e with
  | JObj items =>
      match Py.lookup "message" items with
      | Some (JStr m) => Some m
      | Some _ => None
      | None => Some (Py.str e)
      end
  | _ => None
  end.

Fixpoint error_texts (es : list json) : option (list string) :=
  match es with
  | [] => Some []
  | e :: es' =>
      match error_text e, error_texts es' with
      | Some m, Some ms => Some (m :: ms)
      | _, _ => None
      end
  end.

(** ** Update without attributes *)

(** What is left of [update_issue] when no attribute is given. *)
Definition update_nothing (identifier : string) : M unit :=
  _ ← get_issue_id identifier;
  _ ← eprint "ERROR: No updates specified.";
  sys_exit 1.

(** The arguments of a bare [--update ISSUE]. *)
Definition bare_update (identifier : string) : Args :=
  {| a_create := false; a_update := Some identifier; a_list := false;
     a_add_labels := None; a_remove_labels := None; a_comment := None;
     a_archive := None; a_get := None; a_title := None; a_description := None;
     a_priority := None; a_project := None; a_status := None; a_parent := None;
     a_labels := None; a_due_date := None; a_assignee := None; a_body := None;
     a_label := None; a_limit := 25 |}.

(** A service that knows the issue [EST2-42]. *)
Definition knows_issue : World :=
  Example.always (Example.data [("issue", JObj [("id", JStr "uuid-42")])]).

Definition looked_up : Trace :=
  log_post (request_of (issue_id_query "EST2-42") None Example.key) start.

(** [clean m]: when [m] returns, the trace is as it was. *)
Definition clean {A} (m : M A) : Prop := ∀ w t a t', m w t = (Ret a, t') → t' = t.

(** [stops m]: [m] never returns. *)
Definition stops {A} (m : M A) : Prop := ∀ w t a t', m w t ≠ (Ret a, t').


(** ** The list query *)

(** The clause an optional argument contributes: one when it is given. *)
Definition clause_for (arg : option string) (text_of : string → string) : list string :=
  if given arg then [text_of (default "" arg)] else [].

Definition name_clause (key text : string) : string :=
  key +:+ ": { name: { containsIgnoreCase: " +:+ quoted (escape_graphql text) +:+ " } }".

Definition priority_clause (priority : string) : string :=
  "priority: { eq: " +:+ pretty (priority_value priority) +:+ " }".

(** One clause per given option, in the order the specification lists them. *)
Definition expected_filters (status project priority label assignee : option string)
  : list string :=
  clause_for status (name_clause "state") ++
  clause_for project (name_clause "project") ++
  clause_for priority priority_clause ++
  clause_for label (name_clause "labels") ++
  clause_for assignee (name_clause "assignee").

Definition count_given (args : list (option string)) : nat :=
  length (filter (λ a, given a = true) args).

(** The call the list query makes on the issues of the team. *)
Definition issues_call (limit : Z) (filter_clause : string) : string :=
  "issues(first: " +:+ pretty limit +:+ ", orderBy: updatedAt" +:+ filter_clause +:+ ")".

(** ** Priorities on display *)

(** The integer a decoded value is as a dict key ([True] is 1, [False] 0). *)
Definition as_int (v : json) : option Z :=
  match v with
  | JInt n => Some n
  | JBool b => Some (if b then 1 else 0)
  | _ => None
  end.

(** A value that can be a dict key: anything but a list or a dict. *)
Definition hashable (v : json) : Prop :=
  match v with JArr _ | JObj _ => False | _ => True end.

(** Not one of the integers 0..4. *)
Definition outside_0_4 (v : json) : Prop := ∀ n, as_int v = Some n → n < 0 ∨ 4 < n.

(** What the [copy_...] steps return extends what they were given. *)
Definition extends {A} (m : list (string * json) → M A)
    (result : A → list (string * json)) : Prop :=
  ∀ output w t a t', m output w t = (Ret a, t') →
    t' = t ∧ ∃ extra, result a = output ++ extra.

(** An issue as the list query returns it, without a priority. *)
Definition unprioritised : json :=
  JObj [("identifier", JStr "EST2-7"); ("title", JStr "Fix totals");
        ("url", JStr "https://linear.app/est2/issue/EST2-7")].

Definition unprioritised_item : json :=
  JObj [("identifier", JStr "EST2-7"); ("title", JStr "Fix totals");
        ("status", JNull); ("priority", JStr "none");
        ("url", JStr "https://linear.app/est2/issue/EST2-7")].

(** ** Label operations *)






(** The example of the specification: the issue is labelled [urgent], and
    the labels [Bug] and [urgent] are asked for. *)
Definition label_node (id name : string) : json :=
  JObj [("id", JStr id); ("name", JStr name)].





(** ** Name resolution *)




(** A user as the service lists it. *)
Record user := { u_active : bool; u_name : string; u_email : string; u_id : json }.









Definition team_labels : list json :=
  [label_node "L-bug" "Bug"; label_node "L-urgent" "urgent"].

Definition labels_world : World :=
  Example.always
    (Example.data [("team", JObj [("labels", JObj [("nodes", JArr team_labels)])])]).

Definition labels_fetched : Trace :=
  log_post (request_of (@team_query example_runtime (JStr "team-1") "labels" "color")
              None Example.key) start.

(** A service that knows no issue. *)
Definition no_issue : World := Example.always (Example.data [("issue", JNull)]).


(* --------------------------------------------------------------------- *)
(** ** Invariants of the operations *)

(** ** The shape of a run *)

(** An outcome that is not an exit. *)
Definition never_exits {A} (o : outcome A) : Prop := ∀ c, o ≠ Exit c.

(** Between [t] and [t'] the lines [errs] went to standard error and the
    documents [docs] to standard output, and nothing else was touched
    there. *)
Definition grows (t t' : Trace) (errs : list string) (docs : list json) : Prop :=
  stderr t' = stderr t ++ errs ∧ stdout t' = stdout t ++ docs.

(** [prelude m]: [m] writes nothing unless it exits, and then the status is 1
    and the explanation is on standard error. *)
Definition prelude {A} (m : M A) : Prop :=
  ∀ w t o t', m w t = (o, t') →
    match o with
    | Exit c => c = 1 ∧ ∃ errs, errs ≠ [] ∧ grows t t' errs []
    | _ => grows t t' [] []
    end.

(** [report m]: [m] ends by printing one document; it exits with status 1
    after an explanation on standard error or after the one document, and an
    exception leaves both streams as they were. *)
Definition report {A} (m : M A) : Prop :=
  ∀ w t o t', m w t = (o, t') →
    match o with
    | Ret _ => ∃ doc, grows t t' [] [doc]
    | Exit c =>
        c = 1 ∧
        ((∃ errs, errs ≠ [] ∧ grows t t' errs []) ∨ (∃ doc, grows t t' [] [doc]))
    | Raise _ => grows t t' [] []
    end.

(** A property of all eight operations of the command line. *)
Definition every_operation (P : M unit → Prop) : Prop :=
  (∀ title description priority project parent labels due_date assignee status,
     P (create_issue title description priority project parent labels due_date
          assignee status)) ∧
  (∀ identifier status priority title description project parent labels due_date
     assignee,
     P (update_issue identifier status priority title description project parent
          labels due_date assignee)) ∧
  (∀ status project priority label assignee limit,
     P (list_issues status project priority label assignee limit)) ∧
  (∀ identifier label_names, P (add_labels_to_issue identifier label_names)) ∧
  (∀ identifier label_names, P (remove_labels_from_issue identifier label_names)) ∧
  (∀ identifier body, P (add_comment identifier body)) ∧
  (∀ identifier, P (archive_issue identifier)) ∧
  (∀ identifier, P (get_issue identifier)).

(** [once m]: a run of [m] writes at most one document to standard output,
    and exactly one when it returns. *)
Definition once {A} (m : M A) : Prop :=
  ∀ w t o t', m w t = (o, t') →
    ∃ docs, stdout t' = stdout t ++ docs ∧ (length docs ≤ 1)%nat ∧
            (∀ a, o = Ret a → length docs = 1%nat).

(** [tidy m]: a run of [m] that returns has written nothing to standard
    error. *)
Definition tidy {A} (m : M A) : Prop :=
  ∀ w t a t', m w t = (Ret a, t') → stderr t' = stderr t.

(** What a run has written so far, on both streams. *)
Definition written (t : Trace) : nat := (length (stderr t) + length (stdout t))%nat.

(** [loud m]: a run of [m] that ends in an exit has written something. *)
Definition loud {A} (m : M A) : Prop :=
  ∀ w t c t', m w t = (Exit c, t') → (written t < written t')%nat.

(** [untouched m]: a run of [m] that ends in an exception has written nothing. *)
Definition untouched {A} (m : M A) : Prop :=
  ∀ w t e t', m w t = (Raise e, t') → stderr t' = stderr t ∧ stdout t' = stdout t.

(** [posts_le n m]: a run of [m] sends at most [n] requests. *)
Definition posts_le {A} (n : nat) (m : M A) : Prop :=
  ∀ w t, ∃ reqs, posts (m w t).2 = posts t ++ reqs ∧ (length reqs ≤ n)%nat.

(** [quiet_in w m]: in the world [w], a run of [m] sends no request. *)
Definition quiet_in {A} (w : World) (m : M A) : Prop :=
  ∀ t, posts (m w t).2 = posts t.

(** The credentials file of [w] holds a document with an [api_key]. *)
Definition has_api_key (w : World) : Prop :=
  ∃ creds key, fs w (CREDENTIALS_FILE w) = Some (Doc creds) ∧
               Py.item creds "api_key" = Ret key.

(** A credentials file that names the team but holds no key. *)
Definition keyless : World :=
  {| home := Example.home_dir;
     fs := λ _, Some (Doc (JObj [("team_id", JStr "team-1")]));
     service := λ _ _, Body JNull |}.

(** The characters of a date [validate_date] accepts. *)
Definition date_char (c : ascii) : bool :=
  PyStr.is_digit c || bool_decide (c = "-"%char) || bool_decide (c = PyStr.nl).

(** A label name of white space only. *)
Definition blank (name : string) : Prop := PyStr.strip name = EmptyString.

(** The reply to a lookup holds no issue. *)
Definition issue_missing (result : json) : Prop :=
  ∃ issue, Py.get result "issue" JNull = Ret issue ∧ Py.truthy issue = false.

(** The run that ends at an issue that is not found. *)
Definition not_found_stop (identifier : string) (t : Trace) : outcome unit * Trace :=
  (Exit 1, log_err [issue_not_found identifier] t).

(** The message for a due date that is not accepted. *)
Definition invalid_date (due_date : string) : string :=
  "ERROR: Invalid date format '" +:+ due_date +:+ "'. Use YYYY-MM-DD".

(** [steady m]: a run of [m] takes back no request. *)
Definition steady {A} (m : M A) : Prop :=
  ∀ w t, (length (posts t) ≤ length (posts (m w t).2))%nat.

(** [asks m]: a run of [m] that returns has sent a request. *)
Definition asks {A} (m : M A) : Prop :=
  ∀ w t a t', m w t = (Ret a, t') → (length (posts t) < length (posts t'))%nat.

End Statements.

(* ===================================================================== *)
(** * Priorities *)
(* ===================================================================== *)

Lemma PRIORITY_MAP_lookup :
  PRIORITY_MAP !! "urgent" = Some 1 ∧ PRIORITY_MAP !! "high" = Some 2 ∧
  PRIORITY_MAP !! "medium" = Some 3 ∧ PRIORITY_MAP !! "low" = Some 4 ∧
  PRIORITY_MAP !! "none" = Some 0.
Proof. repeat split; vm_compute; reflexivity. Qed.

Lemma PRIORITY_DISPLAY_lookup (n : Z) :
  PRIORITY_DISPLAY !! n =
    if n =? 0 then Some "none" else if n =? 1 then Some "urgent"
    else if n =? 2 then Some "high" else if n =? 3 then Some "medium"
    else if n =? 4 then Some "low" else None.
Proof.
  destruct (Z.eqb_spec n 0) as [-> | H0]; [vm_compute; reflexivity |].
  destruct (Z.eqb_spec n 1) as [-> | H1]; [vm_compute; reflexivity |].
  destruct (Z.eqb_spec n 2) as [-> | H2]; [vm_compute; reflexivity |].
  destruct (Z.eqb_spec n 3) as [-> | H3]; [vm_compute; reflexivity |].
  destruct (Z.eqb_spec n 4) as [-> | H4]; [vm_compute; reflexivity |].
  unfold PRIORITY_DISPLAY, dict_of, PRIORITY_ITEMS. cbn [map foldl fst snd].
  rewrite !lookup_insert_ne by congruence. apply lookup_empty.
Qed.

(** C5. Every priority label is mapped by [PRIORITY_MAP] to an integer of
    0..4 which [PRIORITY_DISPLAY] maps back to the label; the forward map is
    therefore injective on the five labels. *)
Theorem priority_round_trip (label : string) :
  label ∈ PRIORITY_LABELS →
  (∃ n, PRIORITY_MAP !! label = Some n ∧ 0 ≤ n ≤ 4 ∧
        PRIORITY_DISPLAY !! n = Some label) ∧
  (∀ other, other ∈ PRIORITY_LABELS →
        PRIORITY_MAP !! other = PRIORITY_MAP !! label → other = label).
Proof.
  intros Hin.
  assert (Hcases : ∀ l, l ∈ PRIORITY_LABELS →
            l = "urgent" ∨ l = "high" ∨ l = "medium" ∨ l = "low" ∨ l = "none").
  { intros l Hl. unfold PRIORITY_LABELS in Hl.
    repeat (apply elem_of_cons in Hl as [-> | Hl]; [tauto |]).
    by apply elem_of_nil in Hl. }
  destruct PRIORITY_MAP_lookup as (Hu & Hh & Hm & Hl & Hn).
  split.
  - destruct (Hcases _ Hin) as [-> | [-> | [-> | [-> | ->]]]];
      eexists; (split; [eassumption |]); (split; [lia |]);
      rewrite PRIORITY_DISPLAY_lookup; reflexivity.
  - intros other Ho Heq.
    destruct (Hcases _ Hin) as [-> | [-> | [-> | [-> | ->]]]];
      destruct (Hcases _ Ho) as [-> | [-> | [-> | [-> | ->]]]];
      try reflexivity; exfalso; congruence.
Qed.

Lemma priority_round_trip_witness :
  "high" ∈ PRIORITY_LABELS ∧
  (∃ n, PRIORITY_MAP !! "high" = Some n ∧ 0 ≤ n ≤ 4 ∧
        PRIORITY_DISPLAY !! n = Some "high").
Proof.
  assert (Hin : "high" ∈ PRIORITY_LABELS) by (unfold PRIORITY_LABELS; set_solver).
  split; [exact Hin | exact (proj1 (priority_round_trip "high" Hin))].
Defined.

(* ===================================================================== *)
(** * Date validation *)
(* ===================================================================== *)

Ltac split_tests :=
  cbn;
  repeat first
    [ reflexivity
    | match goal with
      | |- context [PyStr.is_digit ?c] => destruct (PyStr.is_digit c) eqn:?; cbn
      | |- context [bool_decide _] => case_bool_decide; simplify_eq; cbn
      end
    | congruence ].

(** What [validate_date] accepts: the date shape, and also the date shape
    followed by a newline. *)
Lemma validate_date_accepts (s : string) :
  validate_date s = is_date_shape s || is_date_shape_then_newline s.
Proof.
  unfold validate_date, Re.re_match, DATE_PATTERN, is_date_shape_then_newline,
    is_date_shape.
  do 12 (destruct s as [| ?c s]; [solve [split_tests] |]).
  solve [split_tests].
Qed.

(** C6 (the code departs from the claim). [validate_date] accepts
    ["2024-03-15"] and rejects ["03-15-2024"], as claimed, but it also accepts
    ["2024-03-15"] followed by a newline, which is not of the claimed shape:
    [$] matches before a final newline. *)
Theorem validate_date_trailing_newline :
  validate_date "2024-03-15" = true ∧
  validate_date "03-15-2024" = false ∧
  validate_date ("2024-03-15" +:+ newline) = true ∧
  is_date_shape ("2024-03-15" +:+ newline) = false.
Proof. repeat split; vm_compute; reflexivity. Qed.

(* ===================================================================== *)
(** * Escaping of embedded text *)
(* ===================================================================== *)

Lemma string_app_cons (x : ascii) (a b : string) :
  String x a +:+ b = String x (a +:+ b).
Proof. reflexivity. Qed.


Lemma string_app_assoc (a b c : string) : (a +:+ b) +:+ c = a +:+ (b +:+ c).
Proof.
  induction a as [| x a IH]; [reflexivity |].
  rewrite !string_app_cons. by f_equal.
Qed.









(* ===================================================================== *)
(** * Reasoning about runs *)
(* ===================================================================== *)

Lemma bind_run {A B} (m : M A) (k : A → M B) (w : World) (t : Trace) :
  (m ≫= k) w t =
    match m w t with
    | (Ret a, t') => k a w t'
    | (Exit c, t') => (Exit c, t')
    | (Raise e, t') => (Raise e, t')
    end.
Proof. reflexivity. Qed.

Lemma bind_ret {A B} (m : M A) (k : A → M B) w t a t' :
  m w t = (Ret a, t') → (m ≫= k) w t = k a w t'.
Proof. intros Hm. by rewrite bind_run, Hm. Qed.

Lemma bind_exit {A B} (m : M A) (k : A → M B) w t c t' :
  m w t = (Exit c, t') → (m ≫= k) w t = (Exit c, t').
Proof. intros Hm. by rewrite bind_run, Hm. Qed.

Lemma bind_raise {A B} (m : M A) (k : A → M B) w t e t' :
  m w t = (Raise e, t') → (m ≫= k) w t = (Raise e, t').
Proof. intros Hm. by rewrite bind_run, Hm. Qed.

(** A run that returns went through both halves of a [bind]. *)
Lemma bind_ret_inv {A B} (m : M A) (k : A → M B) w t b t' :
  (m ≫= k) w t = (Ret b, t') →
  ∃ a t1, m w t = (Ret a, t1) ∧ k a w t1 = (Ret b, t').
Proof.
  rewrite bind_run. destruct (m w t) as [[a | c | e] t1]; intros Hk;
    [eauto | discriminate | discriminate].
Qed.

Lemma lift_ret_inv {A} (o : outcome A) w t a t' :
  lift o w t = (Ret a, t') → o = Ret a ∧ t' = t.
Proof. unfold lift. intros [= -> ->]. done. Qed.

Lemma log_err_nil (t : Trace) : log_err [] t = t.
Proof. destruct t. unfold log_err. cbn. by rewrite app_nil_r. Qed.

Lemma log_err_app (l1 l2 : list string) (t : Trace) :
  log_err l2 (log_err l1 t) = log_err (l1 ++ l2) t.
Proof. unfold log_err. cbn. by rewrite app_assoc. Qed.

Lemma eprint_run (line : string) w t : eprint line w t = (Ret tt, log_err [line] t).
Proof. reflexivity. Qed.

Lemma for_each_eprint (lines : list string) w t :
  ∃ us, for_each eprint lines w t = (Ret us, log_err lines t).
Proof.
  revert t. induction lines as [| l ls IH]; intros t; cbn [for_each].
  - exists []. by rewrite log_err_nil.
  - destruct (IH (log_err [l] t)) as [us Hus].
    exists (tt :: us).
    rewrite (bind_ret _ _ _ _ _ _ (eprint_run l w t)).
    rewrite (bind_ret _ _ _ _ _ _ Hus).
    by rewrite log_err_app.
Qed.

Section Runs.
Context `{Runtime}.

Lemma load_credentials_missing w t :
  fs w (CREDENTIALS_FILE w) = None →
  load_credentials w t = missing_credentials w t.
Proof.
  intros Hfs. unfold load_credentials, missing_credentials.
  rewrite bind_run. cbn [ask]. rewrite Hfs.
  destruct (for_each_eprint (CREDENTIALS_HELP (CREDENTIALS_FILE w)) w t) as [us Hus].
  by rewrite (bind_ret _ _ _ _ _ _ Hus).
Qed.

Lemma load_credentials_found w t creds :
  fs w (CREDENTIALS_FILE w) = Some (Doc creds) →
  load_credentials w t = (Ret creds, t).
Proof.
  intros Hfs. unfold load_credentials. rewrite bind_run. cbn [ask]. by rewrite Hfs.
Qed.


Lemma execute_query_missing query variables w t :
  fs w (CREDENTIALS_FILE w) = None →
  execute_query query variables w t = missing_credentials w t.
Proof.
  intros Hfs. unfold execute_query, get_headers.
  apply bind_exit. apply bind_exit. by apply load_credentials_missing.
Qed.

(** With credentials in place, [execute_query] posts exactly one request
    and goes on with the reply of the service. *)
Lemma execute_query_run query variables w t creds key :
  fs w (CREDENTIALS_FILE w) = Some (Doc creds) →
  Py.item creds "api_key" = Ret key →
  execute_query query variables w t =
    on_reply (service w (posts t) (request_of query variables key)) w
      (log_post (request_of query variables key) t).
Proof.
  intros Hfs Hkey.
  assert (Hh : get_headers w t =
            (Ret [("Content-Type", JStr "application/json"); ("Authorization", key)], t)).
  { unfold get_headers.
    rewrite (bind_ret _ _ _ _ _ _ (load_credentials_found w t creds Hfs)).
    rewrite bind_run. unfold lift. by rewrite Hkey. }
  unfold execute_query.
  rewrite (bind_ret _ _ _ _ _ _ Hh). rewrite bind_run. reflexivity.
Qed.

End Runs.

(** ** Computations that post nothing, and the status of every exit *)

Lemma silent_quiet {A} (m : M A) : silent m → quiet m.
Proof. intros Hm w t. by rewrite Hm. Qed.

Lemma silent_ret {A} (a : A) : silent (mret a).
Proof. by intros w t. Qed.

Lemma silent_lift {A} (o : outcome A) : silent (lift o).
Proof. by intros w t. Qed.

Lemma silent_bind {A B} (m : M A) (k : A → M B) :
  silent m → (∀ a, silent (k a)) → silent (m ≫= k).
Proof.
  intros Hm Hk w t. rewrite bind_run. specialize (Hm w t).
  destruct (m w t) as [[a | c | e] t1]; cbn in *; subst; [apply Hk | done | done].
Qed.

Lemma silent_for_each {A B} (f : A → M B) (xs : list A) :
  (∀ x, silent (f x)) → silent (for_each f xs).
Proof.
  intros Hf. induction xs as [| x xs IH]; cbn [for_each].
  - apply silent_ret.
  - apply silent_bind; [apply Hf |]. intros y.
    apply silent_bind; [apply IH |]. intros ys. apply silent_ret.
Qed.

Lemma quiet_bind {A B} (m : M A) (k : A → M B) :
  quiet m → (∀ a, quiet (k a)) → quiet (m ≫= k).
Proof.
  intros Hm Hk w t. rewrite bind_run. specialize (Hm w t).
  destruct (m w t) as [[a | c | e] t1]; cbn in *; [| done | done].
  by rewrite Hk.
Qed.

Lemma quiet_eprint (line : string) : quiet (eprint line).
Proof. by intros w t. Qed.

Lemma quiet_print_json (doc : json) : quiet (print_json doc).
Proof. by intros w t. Qed.

Lemma quiet_sys_exit {A} (c : Z) : quiet (@sys_exit A c).
Proof. by intros w t. Qed.

Lemma quiet_for_each {A B} (f : A → M B) (xs : list A) :
  (∀ x, quiet (f x)) → quiet (for_each f xs).
Proof.
  intros Hf. induction xs as [| x xs IH]; cbn [for_each].
  - apply silent_quiet, silent_ret.
  - apply quiet_bind; [apply Hf |]. intros y.
    apply quiet_bind; [apply IH |]. intros ys. apply silent_quiet, silent_ret.
Qed.

Lemma exits_one_ret {A} (a : A) : exits_one (mret a).
Proof. intros w t c t'. discriminate. Qed.

Lemma exits_one_lift {A} (o : outcome A) :
  (∀ c, o = Exit c → c = 1) → exits_one (lift o).
Proof. intros Ho w t c t' [= -> _]. by apply Ho. Qed.

Lemma exits_one_sys_exit {A} : exits_one (@sys_exit A 1).
Proof. intros w t c t' [= <- _]. done. Qed.

Lemma exits_one_bind {A B} (m : M A) (k : A → M B) :
  exits_one m → (∀ a, exits_one (k a)) → exits_one (m ≫= k).
Proof.
  intros Hm Hk w t c t'. rewrite bind_run.
  destruct (m w t) as [[a | c1 | e] t1] eqn:Hrun; intros Hend.
  - by eapply Hk.
  - injection Hend as <- _. by eapply Hm.
  - discriminate.
Qed.

Lemma exits_one_eprint (line : string) : exits_one (eprint line).
Proof. intros w t c t'. discriminate. Qed.

Lemma exits_one_print_json (doc : json) : exits_one (print_json doc).
Proof. intros w t c t'. discriminate. Qed.

Lemma exits_one_never {A} (m : M A) :
  (∀ w t c t', m w t ≠ (Exit c, t')) → exits_one m.
Proof. intros Hm w t c t' Hrun. by destruct (Hm w t c t'). Qed.

Lemma exits_one_for_each {A B} (f : A → M B) (xs : list A) :
  (∀ x, exits_one (f x)) → exits_one (for_each f xs).
Proof.
  intros Hf. induction xs as [| x xs IH]; cbn [for_each].
  - apply exits_one_ret.
  - apply exits_one_bind; [apply Hf |]. intros y.
    apply exits_one_bind; [apply IH |]. intros ys. apply exits_one_ret.
Qed.

(** The accessors of decoded JSON never exit. *)
Lemma get_no_exit d k v c : Py.get d k v = Exit c → c = 1.
Proof. destruct d; discriminate. Qed.

Lemma item_no_exit d k c : Py.item d k = Exit c → c = 1.
Proof. destruct d; try discriminate. cbn. by case_match. Qed.

Lemma iter_no_exit v c : Py.iter v = Exit c → c = 1.
Proof. destruct v; discriminate. Qed.

Lemma has_no_exit k v c : Py.has k v = Exit c → c = 1.
Proof. destruct v; discriminate. Qed.

Lemma as_str_no_exit v c : Py.as_str v = Exit c → c = 1.
Proof. destruct v; discriminate. Qed.

Create HintDb runs.
#[global] Hint Resolve silent_ret silent_lift silent_quiet quiet_eprint quiet_print_json
  quiet_sys_exit exits_one_ret exits_one_sys_exit exits_one_eprint
  exits_one_print_json get_no_exit item_no_exit
  iter_no_exit has_no_exit as_str_no_exit : runs.

(** Goes through a computation built from [bind], [if] and [match]. *)
Ltac walk :=
  repeat first
    [ solve [eauto with runs]
    | apply quiet_bind | apply exits_one_bind | apply silent_bind
    | apply quiet_for_each | apply exits_one_for_each | apply silent_for_each
    | apply exits_one_lift
    | progress intros
    | discriminate
    | match goal with
      | |- context [match ?x with _ => _ end] => destruct x
      end ].

Section Runs2.
Context `{Runtime}.

Lemma quiet_on_reply reply : quiet (on_reply reply).
Proof. unfold on_reply. walk. Qed.

Lemma exits_one_on_reply reply : exits_one (on_reply reply).
Proof. unfold on_reply. walk. Qed.

Lemma exits_one_load_credentials : exits_one load_credentials.
Proof.
  unfold load_credentials. apply exits_one_bind.
  - intros w t c t'. discriminate.
  - intros w. walk.
Qed.

Lemma exits_one_execute_query query variables : exits_one (execute_query query variables).
Proof.
  unfold execute_query, get_headers.
  apply exits_one_bind.
  - apply exits_one_bind; [apply exits_one_load_credentials |]. walk.
  - intros headers. apply exits_one_bind.
    + intros w t c t'. discriminate.
    + intros reply. apply exits_one_on_reply.
Qed.

(** The only request a run of [execute_query] can add is its own. *)
Lemma execute_query_posts query variables w t :
  posts (execute_query query variables w t).2 = posts t ∨
  ∃ key, posts (execute_query query variables w t).2 =
           posts t ++ [request_of query variables key].
Proof.
  destruct (fs w (CREDENTIALS_FILE w)) as [[| creds] |] eqn:Hfs.
  - left. unfold execute_query, get_headers, load_credentials.
    rewrite !bind_run. cbn [ask]. by rewrite Hfs.
  - destruct (Py.item creds "api_key") as [key | c | e] eqn:Hkey.
    + right. exists key.
      rewrite (execute_query_run _ _ _ _ _ _ Hfs Hkey).
      by rewrite quiet_on_reply.
    + left. unfold execute_query, get_headers.
      rewrite bind_run, bind_run.
      rewrite (load_credentials_found _ _ _ Hfs).
      rewrite bind_run. unfold lift. by rewrite Hkey.
    + left. unfold execute_query, get_headers.
      rewrite bind_run, bind_run.
      rewrite (load_credentials_found _ _ _ Hfs).
      rewrite bind_run. unfold lift. by rewrite Hkey.
  - left. by rewrite execute_query_missing.
Qed.

End Runs2.

(* ===================================================================== *)
(** * Failures of a request *)
(* ===================================================================== *)

Section Failures.
Context `{Runtime}.

Lemma error_texts_run (es : list json) (msgs : list string) w t :
  error_texts es = Some msgs →
  ∃ raw,
    for_each (λ e, lift (Py.get e "message" (JStr (Py.str e)))) es w t = (Ret raw, t) ∧
    for_each (λ m, lift (Py.as_str m)) raw w t = (Ret msgs, t).
Proof.
  revert msgs. induction es as [| e es IH]; intros msgs Hm; cbn in Hm.
  - injection Hm as <-. by exists [].
  - destruct (error_text e) as [m |] eqn:He; [| discriminate].
    destruct (error_texts es) as [ms |] eqn:Hes; [| discriminate].
    injection Hm as <-.
    destruct (IH ms eq_refl) as (raw & Hraw & Htexts).
    exists (JStr m :: raw). cbn [for_each].
    assert (Hget : Py.get e "message" (JStr (Py.str e)) = Ret (JStr m)).
    { destruct e as [| | | | | items]; try discriminate. cbn in He |- *.
      destruct (Py.lookup "message" items) as [[| | | s | |] |]; try discriminate;
        by injection He as ->. }
    split.
    + rewrite bind_run. unfold lift at 1. rewrite Hget.
      rewrite bind_run, Hraw. reflexivity.
    + rewrite bind_run. unfold lift at 1. cbn [Py.as_str].
      rewrite bind_run, Htexts. reflexivity.
Qed.

(** C3. With the credentials in place, [execute_query] posts its request
    once; a reply with HTTP status 401 ends the run with [AUTH_ERROR] and
    exit status 1, status 429 with [RATE_LIMITED], any other HTTP error
    status with [HTTP_ERROR], a transport failure with [NETWORK_ERROR], and
    a body with a GraphQL [errors] list with [GRAPHQL_ERROR]; whatever the
    caller [k] would do next is not run, and no second request is sent. *)
Theorem execute_query_failures {B} (k : json → M B) (w : World) (t : Trace)
    (query : string) (variables : option json) (creds key : json) :
  fs w (CREDENTIALS_FILE w) = Some (Doc creds) →
  Py.item creds "api_key" = Ret key →
  let req := request_of query variables key in
  let reply := service w (posts t) req in
  let ends_with lines :=
    (execute_query query variables ≫= k) w t
      = (Exit 1, log_err lines (log_post req t)) in
  (∀ reason, reply = HTTPError 401 reason →
     ends_with ["AUTH_ERROR: Invalid or expired API key";
                "Check your API key at: Linear > Settings > API > Personal API keys"]) ∧
  (∀ reason, reply = HTTPError 429 reason →
     ends_with ["RATE_LIMITED: Too many requests - wait a moment and try again"]) ∧
  (∀ code reason, reply = HTTPError code reason → code ≠ 401 → code ≠ 429 →
     ends_with ["HTTP_ERROR: " +:+ pretty code +:+ " " +:+ reason]) ∧
  (∀ reason, reply = URLError reason →
     ends_with ["NETWORK_ERROR: <urlopen error " +:+ reason +:+ ">"]) ∧
  (∀ items es msgs, reply = Body (JObj items) →
     Py.lookup "errors" items = Some (JArr es) → error_texts es = Some msgs →
     ends_with ["GRAPHQL_ERROR: " +:+ PyStr.join "; " msgs]).
Proof.
  intros Hfs Hkey req reply ends_with. subst ends_with. cbn beta.
  assert (Hrun : ∀ lines,
            on_reply reply w (log_post req t) = (Exit 1, log_err lines (log_post req t)) →
            (execute_query query variables ≫= k) w t
              = (Exit 1, log_err lines (log_post req t))).
  { intros lines Hr. apply bind_exit.
    by rewrite (execute_query_run _ _ _ _ _ _ Hfs Hkey). }
  repeat split.
  - intros reason Hreply. apply Hrun. rewrite Hreply. unfold on_reply.
    change (401 =? 401) with true. cbn match.
    rewrite bind_run, eprint_run, bind_run, eprint_run, log_err_app. reflexivity.
  - intros reason Hreply. apply Hrun. rewrite Hreply. reflexivity.
  - intros code reason Hreply H401 H429. apply Hrun. rewrite Hreply.
    unfold on_reply.
    apply Z.eqb_neq in H401, H429. rewrite H401, H429. reflexivity.
  - intros reason Hreply. apply Hrun. rewrite Hreply. reflexivity.
  - intros items es msgs Hreply Herrors Htexts. apply Hrun. rewrite Hreply.
    unfold on_reply.
    rewrite bind_run. unfold lift at 1. cbn [Py.has]. rewrite Herrors.
    rewrite bind_run. unfold lift at 1. cbn [Py.item]. rewrite Herrors.
    rewrite bind_run. unfold lift at 1. cbn [Py.iter].
    destruct (error_texts_run es msgs w (log_post req t) Htexts)
      as (raw & Hraw & Hmsgs).
    rewrite (bind_ret _ _ _ _ _ _ Hraw).
    rewrite (bind_ret _ _ _ _ _ _ Hmsgs).
    reflexivity.
Qed.

End Failures.

Lemma execute_query_failures_witness :
  fs (Example.always (HTTPError 401 "Unauthorized"))
     (CREDENTIALS_FILE (Example.always (HTTPError 401 "Unauthorized")))
    = Some (Doc Example.creds) ∧
  Py.item Example.creds "api_key" = Ret Example.key ∧
  (@execute_query example_runtime "{ viewer { id } }" None ≫= λ j, mret j)
    (Example.always (HTTPError 401 "Unauthorized")) start
  = (Exit 1,
     log_err ["AUTH_ERROR: Invalid or expired API key";
              "Check your API key at: Linear > Settings > API > Personal API keys"]
       (log_post (request_of "{ viewer { id } }" None Example.key) start)).
Proof.
  split; [reflexivity |]. split; [reflexivity |].
  exact (proj1 (@execute_query_failures example_runtime json (λ j, mret j)
                  (Example.always (HTTPError 401 "Unauthorized")) start
                  "{ viewer { id } }" None Example.creds Example.key
                  eq_refl eq_refl)
           "Unauthorized" eq_refl).
Defined.

(* ===================================================================== *)
(** * Missing credentials *)
(* ===================================================================== *)



(* ===================================================================== *)
(** * Update without attributes *)
(* ===================================================================== *)

Lemma quiet_after {A B} (m : M A) (k : A → M B) w t :
  (∀ a, quiet (k a)) → posts ((m ≫= k) w t).2 = posts (m w t).2.
Proof.
  intros Hk. rewrite bind_run.
  destruct (m w t) as [[a | c | e] t1]; cbn; [apply Hk | done | done].
Qed.

Section Update.
Context `{Runtime}.

Lemma exits_one_get_issue_id identifier : exits_one (get_issue_id identifier).
Proof.
  unfold get_issue_id. apply exits_one_bind; [apply exits_one_execute_query |].
  walk.
Qed.

Lemma get_issue_id_posts identifier w t :
  posts (get_issue_id identifier w t).2 = posts t ∨
  ∃ key, posts (get_issue_id identifier w t).2 =
           posts t ++ [request_of (issue_id_query identifier) None key].
Proof.
  unfold get_issue_id. rewrite quiet_after by walk.
  apply execute_query_posts.
Qed.

(** C10. [update_issue] with an identifier and no attribute looks the
    issue up and then stops: it never returns normally; when the lookup
    succeeds it writes [ERROR: No updates specified.] to standard error and
    exits with status 1; the only request it can have sent is the lookup
    of the issue, so no [issueUpdate] mutation reaches the service. The
    command line [--update ISSUE] alone runs exactly this. *)
Theorem update_without_flags (identifier : string) (w : World) (t : Trace) :
  let run := update_issue identifier None None None None None None None None None w t in
  run = update_nothing identifier w t ∧
  ((∃ t', run = (Exit 1, t')) ∨ (∃ e t', run = (Raise e, t'))) ∧
  (∀ issue_id t1, get_issue_id identifier w t = (Ret issue_id, t1) →
     run = (Exit 1, log_err ["ERROR: No updates specified."] t1)) ∧
  (posts run.2 = posts t ∨
   ∃ key, posts run.2 = posts t ++ [request_of (issue_id_query identifier) None key]) ∧
  (PyStr.truthy identifier = true → main (bare_update identifier) w t = run).
Proof.
  intros run.
  assert (Hrun : run = update_nothing identifier w t) by reflexivity.
  split; [exact Hrun |].
  split; [| split; [| split]].
  - rewrite Hrun. unfold update_nothing. rewrite bind_run.
    destruct (get_issue_id identifier w t) as [[a | c | e] t1] eqn:Hid.
    + left. eexists. reflexivity.
    + left. exists t1. by rewrite (exits_one_get_issue_id _ _ _ _ _ Hid).
    + right. by exists e, t1.
  - intros issue_id t1 Hid. rewrite Hrun. unfold update_nothing.
    by rewrite (bind_ret _ _ _ _ _ _ Hid).
  - rewrite Hrun. unfold update_nothing. rewrite quiet_after by walk.
    apply get_issue_id_posts.
  - intros Hid. unfold main, bare_update, given. cbn. by rewrite Hid.
Qed.

End Update.

Lemma update_without_flags_witness :
  @get_issue_id example_runtime "EST2-42" knows_issue start
    = (Ret (JStr "uuid-42"), looked_up) ∧
  @update_issue example_runtime "EST2-42"
      None None None None None None None None None knows_issue start
    = (Exit 1, log_err ["ERROR: No updates specified."] looked_up) ∧
  @main example_runtime (bare_update "EST2-42") knows_issue start
    = (Exit 1, log_err ["ERROR: No updates specified."] looked_up).
Proof.
  assert (Hid : @get_issue_id example_runtime "EST2-42" knows_issue start
                = (Ret (JStr "uuid-42"), looked_up)) by (vm_compute; reflexivity).
  pose proof (@update_without_flags example_runtime "EST2-42" knows_issue start)
    as (_ & _ & Hstop & _ & Hmain).
  split; [exact Hid |]. split.
  - exact (Hstop _ _ Hid).
  - rewrite (Hmain eq_refl). exact (Hstop _ _ Hid).
Defined.

(* ===================================================================== *)
(** * The reshaping helpers leave the trace alone *)
(* ===================================================================== *)

Lemma silent_jget d k : silent (jget d k).
Proof. apply silent_lift. Qed.

Lemma silent_jget_or d k v : silent (jget_or d k v).
Proof. apply silent_lift. Qed.

Lemma silent_jitem d k : silent (jitem d k).
Proof. apply silent_lift. Qed.

#[global] Hint Resolve silent_jget silent_jget_or silent_jitem : runs.

Lemma silent_copy_sub issue key sub out_key output :
  silent (copy_sub issue key sub out_key output).
Proof. unfold copy_sub. walk. Qed.

Lemma silent_copy_labels issue output : silent (copy_labels issue output).
Proof. unfold copy_labels. walk. Qed.

Lemma silent_copy_due_date issue output : silent (copy_due_date issue output).
Proof. unfold copy_due_date. walk. Qed.

Lemma silent_status_of issue : silent (status_of issue).
Proof. unfold status_of. walk. Qed.

Lemma silent_priority_of issue : silent (priority_of issue).
Proof. unfold priority_of. walk. Qed.

Lemma silent_name_or_none issue key : silent (name_or_none issue key).
Proof. unfold name_or_none. walk. Qed.

Lemma silent_child_entry c : silent (child_entry c).
Proof. unfold child_entry. walk; apply silent_status_of. Qed.

Lemma silent_comment_entry c : silent (comment_entry c).
Proof. unfold comment_entry. walk. Qed.

Lemma silent_copy_parent issue output : silent (copy_parent issue output).
Proof. unfold copy_parent. walk. Qed.

Lemma silent_copy_children issue output : silent (copy_children issue output).
Proof. unfold copy_children. walk; apply silent_child_entry. Qed.

#[global] Hint Resolve silent_copy_parent silent_copy_children silent_for_each : runs.

#[global] Hint Resolve silent_copy_sub silent_copy_labels silent_copy_due_date
  silent_status_of silent_priority_of silent_name_or_none silent_child_entry
  silent_comment_entry : runs.

Lemma quiet_failure message : quiet (failure message).
Proof. unfold failure. walk. Qed.

#[global] Hint Resolve quiet_failure : runs.

(** A silent computation that returns hands the trace on unchanged. *)
Lemma silent_ret_inv {A} (m : M A) w t a t' :
  silent m → m w t = (Ret a, t') → t' = t.
Proof. intros Hm Hrun. specialize (Hm w t). by rewrite Hrun in Hm. Qed.

(** ** Runs that return *)

Lemma silent_clean {A} (m : M A) : silent m → clean m.
Proof. intros Hm w t a t' Hrun. by eapply silent_ret_inv. Qed.

Lemma stops_clean {A} (m : M A) : stops m → clean m.
Proof. intros Hm w t a t' Hrun. by destruct (Hm w t a t'). Qed.

Lemma stops_sys_exit {A} c : stops (@sys_exit A c).
Proof. intros w t a t'. discriminate. Qed.

Lemma stops_bind_r {A B} (m : M A) (k : A → M B) :
  (∀ a, stops (k a)) → stops (m ≫= k).
Proof.
  intros Hk w t b t'. rewrite bind_run.
  destruct (m w t) as [[a | c | e] t1]; [apply Hk | discriminate | discriminate].
Qed.

Lemma clean_bind {A B} (m : M A) (k : A → M B) :
  clean m → (∀ a, clean (k a)) → clean (m ≫= k).
Proof.
  intros Hm Hk w t b t' Hrun.
  apply bind_ret_inv in Hrun as (a & t1 & Hm1 & Hk1).
  apply Hm in Hm1 as ->. by eapply Hk.
Qed.

Section Returns.
Context `{Runtime}.

Lemma clean_on_reply reply : clean (on_reply reply).
Proof.
  unfold on_reply.
  destruct reply as [code reason | reason | | result].
  - repeat case_match; apply stops_clean; repeat (apply stops_bind_r; intro);
      apply stops_sys_exit.
  - apply stops_clean. apply stops_bind_r. intro. apply stops_sys_exit.
  - apply silent_clean. walk.
  - apply clean_bind; [apply silent_clean; walk |].
    intros [|].
    + apply stops_clean. repeat (apply stops_bind_r; intro). apply stops_sys_exit.
    + apply silent_clean. walk.
Qed.

(** A query that returns was sent once, with the key of the credentials
    file, and left nothing on standard error. *)
Lemma execute_query_ret_inv query variables w t result t' :
  execute_query query variables w t = (Ret result, t') →
  ∃ creds key,
    fs w (CREDENTIALS_FILE w) = Some (Doc creds) ∧
    Py.item creds "api_key" = Ret key ∧
    t' = log_post (request_of query variables key) t.
Proof.
  intros Hrun.
  destruct (fs w (CREDENTIALS_FILE w)) as [[| creds] |] eqn:Hfs.
  - unfold execute_query, get_headers, load_credentials in Hrun.
    rewrite !bind_run in Hrun. cbn [ask] in Hrun. rewrite Hfs in Hrun. discriminate.
  - destruct (Py.item creds "api_key") as [key | c | e] eqn:Hkey.
    + exists creds, key. split; [done |]. split; [done |].
      rewrite (execute_query_run _ _ _ _ _ _ Hfs Hkey) in Hrun.
      by apply clean_on_reply in Hrun.
    + unfold execute_query, get_headers in Hrun.
      rewrite bind_run, bind_run in Hrun.
      rewrite (load_credentials_found _ _ _ Hfs) in Hrun.
      rewrite bind_run in Hrun. unfold lift in Hrun. rewrite Hkey in Hrun. discriminate.
    + unfold execute_query, get_headers in Hrun.
      rewrite bind_run, bind_run in Hrun.
      rewrite (load_credentials_found _ _ _ Hfs) in Hrun.
      rewrite bind_run in Hrun. unfold lift in Hrun. rewrite Hkey in Hrun. discriminate.
  - rewrite execute_query_missing in Hrun by done. discriminate.
Qed.

(** With the credentials in place, the posts after a query are known. *)
Lemma execute_query_posts_found query variables w t creds key :
  fs w (CREDENTIALS_FILE w) = Some (Doc creds) →
  Py.item creds "api_key" = Ret key →
  posts (execute_query query variables w t).2 =
    posts t ++ [request_of query variables key].
Proof.
  intros Hfs Hkey. rewrite (execute_query_run _ _ _ _ _ _ Hfs Hkey).
  by rewrite quiet_on_reply.
Qed.


End Returns.

(* ===================================================================== *)
(** * Embedded text is escaped *)
(* ===================================================================== *)


Section Escaping.
Context `{Runtime}.

Lemma get_team_id_found w t creds team_id :
  fs w (CREDENTIALS_FILE w) = Some (Doc creds) →
  Py.item creds "team_id" = Ret team_id →
  get_team_id w t = (Ret team_id, t).
Proof.
  intros Hfs Hteam. unfold get_team_id.
  rewrite (bind_ret _ _ _ _ _ _ (load_credentials_found w t creds Hfs)).
  unfold lift. by rewrite Hteam.
Qed.


End Escaping.


(* ===================================================================== *)
(** * The list query *)
(* ===================================================================== *)

Lemma field_if_run (arg : option string) (make : string → M string)
    (text_of : string → string) (fields : list string) w t :
  (∀ s, make s = mret (text_of s)) →
  field_if arg make fields w t = (Ret (fields ++ clause_for arg text_of), t).
Proof.
  intros Hmake. unfold field_if, clause_for, given.
  destruct arg as [[| c s] |]; cbn; rewrite ?app_nil_r; try reflexivity.
  by rewrite Hmake.
Qed.

Lemma clause_for_length arg text_of :
  length (clause_for arg text_of) = if given arg then 1%nat else 0%nat.
Proof. unfold clause_for. by destruct (given arg). Qed.

Lemma join_truthy (sep x : string) (xs : list string) :
  PyStr.truthy x = true → PyStr.truthy (PyStr.join sep (x :: xs)) = true.
Proof. destruct x as [| c x]; [discriminate |]. intros _. by destruct xs. Qed.

Lemma clause_for_truthy arg text_of :
  (∀ s, PyStr.truthy (text_of s) = true) →
  Forall (λ c, PyStr.truthy c = true) (clause_for arg text_of).
Proof.
  intros Ht. unfold clause_for. destruct (given arg); [| constructor].
  constructor; [apply Ht | constructor].
Qed.

Section ListQuery.
Context `{Runtime}.

(** C8. The filters [list_issues] collects are one clause for each given
    option among status, project, priority, label and assignee, in this
    order; with none given the query carries no filter at all, otherwise it
    carries the clauses, comma separated, inside one [filter: { ... }]
    object; the limit is the [first:] argument of the call; and this query
    is the one request the operation sends. *)
Theorem list_query_filters (status project priority label assignee : option string)
    (limit : Z) (w : World) (t : Trace) :
  let filters := expected_filters status project priority label assignee in
  list_filters status project priority label assignee w t = (Ret filters, t) ∧
  length filters = count_given [status; project; priority; label; assignee] ∧
  (filters = [] → filter_clause_of filters = "") ∧
  (filters ≠ [] →
     filter_clause_of filters = ", filter: { " +:+ PyStr.join ", " filters +:+ " }") ∧
  (∀ team_id, ∃ before after,
     list_query team_id limit (filter_clause_of filters)
     = before +:+ issues_call limit (filter_clause_of filters) +:+ after) ∧
  (∀ creds team_id key,
     fs w (CREDENTIALS_FILE w) = Some (Doc creds) →
     Py.item creds "team_id" = Ret team_id →
     Py.item creds "api_key" = Ret key →
     posts (list_issues status project priority label assignee limit w t).2
     = posts t ++ [request_of (list_query team_id limit (filter_clause_of filters))
                     None key]).
Proof.
  intros filters.
  assert (Hrun : list_filters status project priority label assignee w t
                 = (Ret filters, t)).
  { unfold list_filters.
    rewrite (bind_ret _ _ _ _ _ _
               (field_if_run status _ (name_clause "state") _ w t (λ _, eq_refl))).
    rewrite (bind_ret _ _ _ _ _ _
               (field_if_run project _ (name_clause "project") _ w t (λ _, eq_refl))).
    rewrite (bind_ret _ _ _ _ _ _
               (field_if_run priority _ priority_clause _ w t (λ _, eq_refl))).
    rewrite (bind_ret _ _ _ _ _ _
               (field_if_run label _ (name_clause "labels") _ w t (λ _, eq_refl))).
    rewrite (bind_ret _ _ _ _ _ _
               (field_if_run assignee _ (name_clause "assignee") _ w t (λ _, eq_refl))).
    subst filters. unfold expected_filters. cbn [app].
    by rewrite <- !app_assoc. }
  split; [exact Hrun |].
  split.
  { subst filters. unfold expected_filters, count_given.
    rewrite !length_app, !clause_for_length.
    cbn [filter list_filter].
    repeat case_decide;
      repeat match goal with
             | Hg : given ?a = true |- _ => rewrite Hg
             | Hg : given ?a ≠ true |- _ => apply not_true_is_false in Hg; rewrite Hg
             end; reflexivity. }
  split; [by intros -> |].
  split.
  { intros Hne.
    assert (Htruthy : Forall (λ c, PyStr.truthy c = true) filters).
    { subst filters. unfold expected_filters.
      repeat apply Forall_app_2; apply clause_for_truthy; intros s; reflexivity. }
    destruct filters as [| f fs']; [done |].
    unfold filter_clause_of.
    by rewrite (join_truthy ", " f fs' (Forall_inv Htruthy)). }
  split.
  { intros team_id.
    exists (unlines [""; "    {";
                     "        team(id: " +:+ quoted (Py.str team_id) +:+ ") {"]
            +:+ String PyStr.nl "            ").
    eexists.
    unfold list_query, issues_call, unlines. cbn [PyStr.join].
    rewrite !string_app_assoc. cbn [String.app]. reflexivity. }
  intros creds team_id key Hfs Hteam Hkey.
  unfold list_issues.
  rewrite (bind_ret _ _ _ _ _ _ (get_team_id_found w t creds team_id Hfs Hteam)).
  rewrite (bind_ret _ _ _ _ _ _ Hrun).
  rewrite quiet_after.
  - by apply execute_query_posts_found with creds.
  - intros result. walk.
Qed.

End ListQuery.

Lemma list_query_filters_witness :
  fs (Example.always (Body JNull)) (CREDENTIALS_FILE (Example.always (Body JNull)))
    = Some (Doc Example.creds) ∧
  Py.item Example.creds "team_id" = Ret (JStr "team-1") ∧
  Py.item Example.creds "api_key" = Ret Example.key ∧
  expected_filters (Some "Todo") None (Some "high") None None ≠ [] ∧
  posts (@list_issues example_runtime (Some "Todo") None (Some "high") None None
           10 (Example.always (Body JNull)) start).2
  = posts start
    ++ [request_of
          (@list_query example_runtime (JStr "team-1") 10
             (", filter: { "
              +:+ PyStr.join ", "
                    (expected_filters (Some "Todo") None (Some "high") None None)
              +:+ " }"))
          None Example.key].
Proof.
  pose proof (@list_query_filters example_runtime (Some "Todo") None
                (Some "high") None None 10 (Example.always (Body JNull)) start)
    as (_ & _ & _ & Hclause & _ & Hposts).
  assert (Hne : expected_filters (Some "Todo") None (Some "high") None None ≠ [])
    by discriminate.
  split; [reflexivity |]. split; [reflexivity |]. split; [reflexivity |].
  split; [exact Hne |].
  rewrite <- (Hclause Hne).
  exact (Hposts Example.creds (JStr "team-1") Example.key eq_refl eq_refl eq_refl).
Defined.

(* ===================================================================== *)
(** * Priorities on display *)
(* ===================================================================== *)

Lemma PRIORITY_DISPLAY_get_none (v : json) :
  hashable v → outside_0_4 v → PRIORITY_DISPLAY_get v = Ret "none".
Proof.
  intros Hh Ho. destruct v as [| b | n | s | xs | items]; try done; cbn.
  - destruct (Ho _ eq_refl); destruct b; lia.
  - rewrite PRIORITY_DISPLAY_lookup. pose proof (Ho n eq_refl) as Hn.
    destruct (Z.eqb_spec n 0); [lia |]. destruct (Z.eqb_spec n 1); [lia |].
    destruct (Z.eqb_spec n 2); [lia |]. destruct (Z.eqb_spec n 3); [lia |].
    destruct (Z.eqb_spec n 4); [lia |]. reflexivity.
Qed.

Lemma PRIORITY_DISPLAY_get_total (v : json) :
  hashable v → ∃ label, PRIORITY_DISPLAY_get v = Ret label ∧ label ∈ PRIORITY_LABELS.
Proof.
  intros Hh. unfold PRIORITY_LABELS.
  destruct v as [| b | n | s | xs | items]; try done; cbn;
    try (exists "none"; split; [reflexivity | set_solver]).
  - destruct b; eexists; (split; [vm_compute; reflexivity | set_solver]).
  - rewrite PRIORITY_DISPLAY_lookup.
    destruct (n =? 0); [eexists; split; [reflexivity | set_solver] |].
    destruct (n =? 1); [eexists; split; [reflexivity | set_solver] |].
    destruct (n =? 2); [eexists; split; [reflexivity | set_solver] |].
    destruct (n =? 3); [eexists; split; [reflexivity | set_solver] |].
    destruct (n =? 4); [eexists; split; [reflexivity | set_solver] |].
    exists "none". split; [reflexivity | set_solver].
Qed.

Lemma lookup_app_l k v (output extra : list (string * json)) :
  Py.lookup k output = Some v → Py.lookup k (output ++ extra) = Some v.
Proof.
  induction output as [| [k' v'] output IH]; [discriminate |].
  cbn. by case_match.
Qed.

Ltac step H :=
  let a := fresh "v" in
  let t1 := fresh "t" in
  let Hm := fresh "Hm" in
  apply bind_ret_inv in H as (a & t1 & Hm & H);
  try match type of Hm with
      | ?m ?w ?t0 = _ =>
          assert (t1 = t0) as ->
            by (eapply silent_ret_inv; [| exact Hm]; eauto with runs)
      end.

Lemma copy_sub_extends issue key sub out_key :
  extends (copy_sub issue key sub out_key) id.
Proof.
  intros output w t a t' Hrun.
  split; [eapply silent_ret_inv; [| exact Hrun]; eauto with runs |].
  unfold copy_sub in Hrun. step Hrun. case_match.
  - do 2 step Hrun. injection Hrun as <- _. by eexists.
  - injection Hrun as <- _. exists []. by rewrite app_nil_r.
Qed.

Lemma copy_labels_extends issue : extends (copy_labels issue) id.
Proof.
  intros output w t a t' Hrun.
  split; [eapply silent_ret_inv; [| exact Hrun]; eauto with runs |].
  unfold copy_labels in Hrun. do 2 step Hrun. case_match.
  - do 4 step Hrun. injection Hrun as <- _. by eexists.
  - injection Hrun as <- _. exists []. by rewrite app_nil_r.
Qed.

Lemma copy_parent_extends issue : extends (copy_parent issue) id.
Proof.
  intros output w t a t' Hrun.
  split; [eapply silent_ret_inv; [| exact Hrun]; eauto with runs |].
  unfold copy_parent in Hrun. step Hrun. case_match.
  - do 4 step Hrun. injection Hrun as <- _. by eexists.
  - injection Hrun as <- _. exists []. by rewrite app_nil_r.
Qed.

Lemma copy_children_extends issue : extends (copy_children issue) id.
Proof.
  intros output w t a t' Hrun.
  split; [eapply silent_ret_inv; [| exact Hrun]; eauto with runs |].
  unfold copy_children in Hrun. do 2 step Hrun. case_match.
  - do 4 step Hrun. injection Hrun as <- _. by eexists.
  - injection Hrun as <- _. exists []. by rewrite app_nil_r.
Qed.

Lemma copy_due_date_extends issue : extends (copy_due_date issue) id.
Proof.
  intros output w t a t' Hrun.
  split; [eapply silent_ret_inv; [| exact Hrun]; eauto with runs |].
  unfold copy_due_date in Hrun. step Hrun. case_match.
  - step Hrun. injection Hrun as <- _. by eexists.
  - injection Hrun as <- _. exists []. by rewrite app_nil_r.
Qed.

Lemma priority_of_none (issue v : json) w t :
  Py.get issue "priority" JNull = Ret v → hashable v → outside_0_4 v →
  priority_of issue w t = (Ret (JStr "none"), t).
Proof.
  intros Hget Hh Ho. unfold priority_of, jget.
  rewrite bind_run. unfold lift at 1. rewrite Hget.
  rewrite bind_run. unfold lift at 1.
  by rewrite (PRIORITY_DISPLAY_get_none v Hh Ho).
Qed.

(** One more [copy_...] step of a run that returns. *)
Ltac grow H :=
  let o := fresh "output" in
  let t1 := fresh "t" in
  let Hm := fresh "Hm" in
  let e := fresh "extra" in
  apply bind_ret_inv in H as (o & t1 & Hm & H);
  first [ apply copy_sub_extends in Hm as [-> [e Hm]]
        | apply copy_parent_extends in Hm as [-> [e Hm]]
        | apply copy_children_extends in Hm as [-> [e Hm]]
        | apply copy_labels_extends in Hm as [-> [e Hm]]
        | apply copy_due_date_extends in Hm as [-> [e Hm]] ];
  unfold id in Hm; subst o.

(** The step that read the priority read ["none"]. *)
Ltac use_none Hnone :=
  match goal with
  | Hp : priority_of _ _ _ = _ |- _ => rewrite Hnone in Hp; injection Hp as <-
  end.

Lemma print_json_inv doc w t u t' :
  print_json doc w t = (Ret u, t') → stdout t' = stdout t ++ [doc].
Proof. intros [= _ <-]. reflexivity. Qed.

(** C9. A priority that is absent, [null], a string, or an integer other
    than 0..4 is shown as ["none"]: by the display map itself, in every
    entry [list_issues] prints, in the document [get_issue] prints and in the
    report [update_issue] prints; and the display map with its default gives
    a label for every value that can be looked up. *)
Theorem priority_displayed_none (issue v : json) :
  Py.get issue "priority" JNull = Ret v → hashable v → outside_0_4 v →
  PRIORITY_DISPLAY_get v = Ret "none" ∧
  (∀ w t j t', list_item issue w t = (Ret j, t') →
     Py.item j "priority" = Ret (JStr "none")) ∧
  (∀ w t t', issue_report issue w t = (Ret tt, t') →
     ∃ doc, stdout t' = stdout t ++ [doc] ∧ Py.item doc "priority" = Ret (JStr "none")) ∧
  (∀ result update_data w t t',
     Py.get result "issueUpdate" (JObj []) = Ret update_data →
     Py.get update_data "issue" (JObj []) = Ret issue →
     update_report result w t = (Ret tt, t') →
     ∃ doc, stdout t' = stdout t ++ [doc] ∧ Py.item doc "priority" = Ret (JStr "none")) ∧
  (∀ v', hashable v' →
     ∃ label, PRIORITY_DISPLAY_get v' = Ret label ∧ label ∈ PRIORITY_LABELS).
Proof.
  intros Hget Hh Ho.
  pose proof (λ w t, priority_of_none issue v w t Hget Hh Ho) as Hnone.
  split; [by apply PRIORITY_DISPLAY_get_none |].
  split; [| split; [| split; [| exact PRIORITY_DISPLAY_get_total]]].
  - intros w t j t' Hrun. unfold list_item in Hrun.
    do 5 step Hrun. use_none Hnone.
    do 5 grow Hrun. injection Hrun as <- _. reflexivity.
  - intros w t t' Hrun. unfold issue_report in Hrun.
    do 10 step Hrun. use_none Hnone.
    do 4 grow Hrun. do 4 step Hrun.
    apply print_json_inv in Hrun. eexists. split; [exact Hrun |]. reflexivity.
  - intros result update_data w t t' Hud Hissue Hrun. unfold update_report, jget_or in Hrun.
    rewrite bind_run in Hrun. unfold lift at 1 in Hrun. rewrite Hud in Hrun.
    step Hrun. revert Hrun. case_match; intros Hrun.
    + rewrite bind_run in Hrun. unfold lift at 1 in Hrun. rewrite Hissue in Hrun.
      do 5 step Hrun. use_none Hnone.
      do 5 grow Hrun.
      apply print_json_inv in Hrun. eexists. split; [exact Hrun |]. reflexivity.
    + unfold failure in Hrun. step Hrun. discriminate.
Qed.

Lemma priority_displayed_none_witness :
  Py.get unprioritised "priority" JNull = Ret JNull ∧
  hashable JNull ∧ outside_0_4 JNull ∧
  list_item unprioritised Example.bare start = (Ret unprioritised_item, start) ∧
  Py.item unprioritised_item "priority" = Ret (JStr "none").
Proof.
  assert (Ho : outside_0_4 JNull) by (intros n Hn; discriminate Hn).
  assert (Hrun : list_item unprioritised Example.bare start
                 = (Ret unprioritised_item, start)) by (vm_compute; reflexivity).
  split; [reflexivity |]. split; [exact I |]. split; [exact Ho |].
  split; [exact Hrun |].
  exact (proj1 (proj2 (priority_displayed_none unprioritised JNull eq_refl I Ho))
           Example.bare start unprioritised_item start Hrun).
Defined.

(* ===================================================================== *)
(** * Adding and removing labels *)
(* ===================================================================== *)



Section Labels.
Context `{Runtime}.



Lemma silent_names_of xs : silent (names_of xs).
Proof. unfold names_of. walk. Qed.














End Labels.


(* ===================================================================== *)
(** * Name resolution *)
(* ===================================================================== *)








Section Resolution.
Context `{Runtime}.



End Resolution.

(** ** Where the code departs from the claim *)



(** ** What [in] on two strings decides *)

Lemma prefix_spec (p s : string) :
  String.prefix p s = true ↔ ∃ rest, s = p +:+ rest.
Proof.
  revert s. induction p as [| a p IH]; intros s.
  - split; [intros _; by exists s | intros _; by destruct s].
  - destruct s as [| b s]; cbn.
    + split; [discriminate | intros [rest Hrest]; discriminate].
    + destruct (ascii_dec a b) as [-> | Hne].
      * rewrite IH. split; intros [rest Hrest]; exists rest.
        -- by rewrite string_app_cons, <- Hrest.
        -- rewrite string_app_cons in Hrest. by injection Hrest.
      * split; [discriminate |]. intros [rest Hrest].
        rewrite string_app_cons in Hrest. injection Hrest as Hab _. congruence.
Qed.

(** [needle in hay] holds exactly when [hay] has [needle] as a part. *)
Lemma contains_spec (needle hay : string) :
  PyStr.contains needle hay = true ↔ ∃ before after, hay = before +:+ needle +:+ after.
Proof.
  induction hay as [| c hay IH]; cbn [PyStr.contains].
  - rewrite orb_false_r, prefix_spec. split.
    + intros [rest Hrest]. by exists EmptyString, rest.
    + intros (before & after & Heq). destruct before; [by exists after |].
      rewrite string_app_cons in Heq. discriminate.
  - rewrite orb_true_iff, prefix_spec, IH. split.
    + intros [[rest Hrest] | (before & after & Heq)].
      * by exists EmptyString, rest.
      * exists (String c before), after. by rewrite string_app_cons, <- Heq.
    + intros (before & after & Heq). destruct before as [| b before].
      * left. by exists after.
      * right. rewrite string_app_cons in Heq. injection Heq as _ Heq.
        by exists before, after.
Qed.

(* ===================================================================== *)
(** * Invariants of the operations *)
(* ===================================================================== *)

(* ===================================================================== *)
(** * The pure helpers never exit *)
(* ===================================================================== *)

Lemma never_exits_ret {A} (a : A) : never_exits (Ret a).
Proof. intros c. discriminate. Qed.

Lemma never_exits_raise {A} e : never_exits (@Raise A e).
Proof. intros c. discriminate. Qed.

Lemma never_exits_get d k v : never_exits (Py.get d k v).
Proof. intros c. destruct d; discriminate. Qed.

Lemma never_exits_item d k : never_exits (Py.item d k).
Proof. intros c. destruct d; try discriminate. cbn. case_match; discriminate. Qed.

Lemma never_exits_iter v : never_exits (Py.iter v).
Proof. intros c. destruct v; discriminate. Qed.

Lemma never_exits_has k v : never_exits (Py.has k v).
Proof. intros c. destruct v; discriminate. Qed.

Lemma never_exits_as_str v : never_exits (Py.as_str v).
Proof. intros c. destruct v; discriminate. Qed.

Lemma never_exits_lower_of v : never_exits (lower_of v).
Proof. intros c. destruct v; discriminate. Qed.

Lemma never_exits_name_contains needle x : never_exits (name_contains needle x).
Proof.
  intros c. unfold name_contains.
  destruct (Py.item x "name") as [n | c' | e] eqn:Hn; [| | discriminate].
  - destruct (lower_of n) as [l | c' | e] eqn:Hl; [discriminate | | discriminate].
    by destruct (never_exits_lower_of n c').
  - by destruct (never_exits_item x "name" c').
Qed.

Lemma never_exits_is_active x : never_exits (is_active x).
Proof.
  intros c. unfold is_active.
  destruct (Py.get x "active" JNull) as [a | c' | e] eqn:Ha; [discriminate | | discriminate].
  by destruct (never_exits_get x "active" JNull c').
Qed.

Lemma never_exits_user_matches needle x : never_exits (user_matches needle x).
Proof.
  intros c. unfold user_matches.
  destruct (is_active x) as [[|] | c' | e] eqn:Ha; [| discriminate | | discriminate].
  - destruct (name_contains needle x) as [[|] | c' | e] eqn:Hn; [discriminate | | | discriminate].
    + destruct (Py.get x "email" (JStr "")) as [m | c' | e] eqn:Hm; [| | discriminate].
      * destruct (lower_of m) as [l | c' | e] eqn:Hl; [discriminate | | discriminate].
        by destruct (never_exits_lower_of m c').
      * by destruct (never_exits_get x "email" (JStr "") c').
    + by destruct (never_exits_name_contains needle x c').
  - by destruct (never_exits_is_active x c').
Qed.

Lemma never_exits_first_match test xs :
  (∀ x, never_exits (test x)) → never_exits (first_match test xs).
Proof.
  intros Ht c. induction xs as [| x xs IH]; [discriminate |].
  cbn. destruct (test x) as [[|] | c' | e] eqn:Hx; [discriminate | exact IH | | discriminate].
  by destruct (Ht x c').
Qed.

Lemma never_exits_active_users xs : never_exits (active_users xs).
Proof.
  intros c. induction xs as [| x xs IH]; [discriminate |].
  cbn. destruct (is_active x) as [a | c' | e] eqn:Hx; [| | discriminate].
  - destruct (active_users xs) as [us | c' | e]; [discriminate | | discriminate].
    intros [= ->]. by apply IH.
  - by destruct (never_exits_is_active x c').
Qed.

Lemma never_exits_PRIORITY_DISPLAY_get v : never_exits (PRIORITY_DISPLAY_get v).
Proof. intros c. destruct v; discriminate. Qed.

Create HintDb pure.
#[global] Hint Resolve never_exits_ret never_exits_raise never_exits_get never_exits_item
  never_exits_iter never_exits_has never_exits_as_str never_exits_lower_of
  never_exits_name_contains never_exits_is_active never_exits_user_matches
  never_exits_first_match never_exits_active_users never_exits_PRIORITY_DISPLAY_get : pure.

(* ===================================================================== *)
(** * Going through the operations *)
(* ===================================================================== *)

(** The function a computation is an application of. *)
Ltac head_of t := match t with ?f _ => head_of f | _ => t end.

(** Opens the definition the computation of the goal starts with. *)
Ltac open_head :=
  match goal with
  | |- _ ?m => let h := head_of m in progress unfold h
  end.

(** Closes the goal with the fact at hand about the function the computation
    starts with. *)
Ltac by_hyp :=
  match goal with
  | |- _ ?m =>
      let h := head_of m in
      match goal with
      | H : _ |- _ =>
          let T := type of H in
          lazymatch T with context [h] => solve [apply H] end
      end
  end.

(** Applies [rules] through a computation, opening the functions of the
    scripts and the case distinctions on the way. *)
Ltac drive rules :=
  repeat first
    [ rules
    | match goal with |- ∀ _, _ => intro end
    | progress cbv zeta
    | match goal with
      | |- _ (if ?b then _ else _) => destruct b
      | |- _ (match ?x with _ => _ end) => destruct x
      end
    | open_head ].

Ltac halts := repeat (apply stops_bind_r; intro); apply stops_sys_exit.

(** ** Streams *)

Lemma grows_refl t : grows t t [] [].
Proof. split; by rewrite app_nil_r. Qed.

Lemma grows_step t t1 t' errs docs :
  grows t t1 [] [] → grows t1 t' errs docs → grows t t' errs docs.
Proof.
  intros [He Hd] [He' Hd']. rewrite app_nil_r in He, Hd.
  split; congruence.
Qed.

Lemma grows_log_err t lines : grows t (log_err lines t) lines [].
Proof. split; cbn; [done | by rewrite app_nil_r]. Qed.

Lemma prelude_ret {A} (a : A) : prelude (mret a).
Proof. intros w t o t' [= <- <-]. apply grows_refl. Qed.

Lemma prelude_lift {A} (o : outcome A) : never_exits o → prelude (lift o).
Proof.
  intros Ho w t o' t' [= <- <-].
  destruct o as [a | c | e]; [apply grows_refl | by destruct (Ho c) | apply grows_refl].
Qed.

Lemma prelude_ask : prelude ask.
Proof. intros w t o t' [= <- <-]. apply grows_refl. Qed.

Lemma prelude_urlopen req : prelude (urlopen req).
Proof. intros w t o t' [= <- <-]. split; cbn; by rewrite app_nil_r. Qed.

Lemma prelude_bind {A B} (m : M A) (k : A → M B) :
  prelude m → (∀ a, prelude (k a)) → prelude (m ≫= k).
Proof.
  intros Hm Hk w t o t' Hrun. rewrite bind_run in Hrun.
  destruct (m w t) as [[a | c | e] t1] eqn:Hm1; specialize (Hm _ _ _ _ Hm1); cbn in Hm.
  - specialize (Hk a _ _ _ _ Hrun).
    destruct o as [b | c | e]; [by eapply grows_step | | by eapply grows_step].
    destruct Hk as (-> & errs & Hne & Hg). split; [done |].
    exists errs. split; [done |]. by eapply grows_step.
  - by injection Hrun as <- <-.
  - by injection Hrun as <- <-.
Qed.

Lemma prelude_for_each {A B} (f : A → M B) (xs : list A) :
  (∀ x, prelude (f x)) → prelude (for_each f xs).
Proof.
  intros Hf. induction xs as [| x xs IH]; cbn [for_each].
  - apply prelude_ret.
  - apply prelude_bind; [apply Hf |]. intros y.
    apply prelude_bind; [apply IH |]. intros ys. apply prelude_ret.
Qed.

Lemma prelude_abort {A} line lines :
  prelude (for_each eprint (line :: lines) ≫= λ _, @sys_exit A 1).
Proof.
  intros w t o t' Hrun. rewrite bind_run in Hrun.
  destruct (for_each_eprint (line :: lines) w t) as [us Hus]. rewrite Hus in Hrun.
  injection Hrun as <- <-. split; [done |].
  exists (line :: lines). split; [done | apply grows_log_err].
Qed.

Lemma prelude_eprint_exit {A} line : prelude (eprint line ≫= λ _, @sys_exit A 1).
Proof.
  intros w t o t' [= <- <-]. split; [done |].
  exists [line]. split; [done | apply (grows_log_err t [line])].
Qed.

Lemma prelude_eprint2_exit {A} line1 line2 :
  prelude (eprint line1 ≫= λ _, eprint line2 ≫= λ _, @sys_exit A 1).
Proof.
  intros w t o t' [= <- <-]. split; [done |].
  exists [line1; line2]. split; [done |].
  split; cbn; [by rewrite <- app_assoc | by rewrite app_nil_r].
Qed.

Ltac prelude_rules :=
  first
    [ by_hyp
    | lazymatch goal with
      | |- prelude (mret _) => apply prelude_ret
      | |- prelude (lift _) => apply prelude_lift; solve [auto 6 with pure]
      | |- prelude ask => apply prelude_ask
      | |- prelude (urlopen _) => apply prelude_urlopen
      | |- prelude (eprint _ ≫= λ _, sys_exit 1) => apply prelude_eprint_exit
      | |- prelude (eprint _ ≫= λ _, eprint _ ≫= λ _, sys_exit 1) =>
          apply prelude_eprint2_exit
      | |- prelude (for_each eprint _ ≫= λ _, sys_exit 1) => apply prelude_abort
      | |- prelude (_ ≫= _) => apply prelude_bind
      | |- prelude (for_each _ _) => apply prelude_for_each
      end ].

Lemma report_print_json doc : report (print_json doc).
Proof. intros w t o t' [= <- <-]. exists doc. split; cbn; [by rewrite app_nil_r | done]. Qed.

Lemma report_print_exit doc : report (print_json doc ≫= λ _, @sys_exit unit 1).
Proof.
  intros w t o t' [= <- <-]. split; [done |]. right.
  exists doc. split; cbn; [by rewrite app_nil_r | done].
Qed.

Lemma report_halt {A} (m : M A) : prelude m → stops m → report m.
Proof.
  intros Hm Hs w t o t' Hrun. specialize (Hm _ _ _ _ Hrun).
  destruct o as [a | c | e]; [by destruct (Hs w t a t') | | done].
  destruct Hm as [-> Hm]. split; [done | by left].
Qed.

Lemma report_bind {A B} (m : M A) (k : A → M B) :
  prelude m → (∀ a, report (k a)) → report (m ≫= k).
Proof.
  intros Hm Hk w t o t' Hrun. rewrite bind_run in Hrun.
  destruct (m w t) as [[a | c | e] t1] eqn:Hm1; specialize (Hm _ _ _ _ Hm1); cbn in Hm.
  - specialize (Hk a _ _ _ _ Hrun). destruct o as [b | c | e].
    + destruct Hk as [doc Hg]. exists doc. by eapply grows_step.
    + destruct Hk as (-> & [(errs & Hne & Hg) | (doc & Hg)]); (split; [done |]).
      * left. exists errs. split; [done | by eapply grows_step].
      * right. exists doc. by eapply grows_step.
    + by eapply grows_step.
  - injection Hrun as <- <-. destruct Hm as [-> Hm]. split; [done | by left].
  - by injection Hrun as <- <-.
Qed.

Ltac report_rules :=
  first
    [ by_hyp
    | lazymatch goal with
      | |- report (print_json _) => apply report_print_json
      | |- report (print_json _ ≫= λ _, sys_exit 1) => apply report_print_exit
      | |- report (eprint _ ≫= _) =>
          apply report_halt; [solve [drive prelude_rules] | solve [halts]]
      | |- report (_ ≫= _) => apply report_bind; [solve [drive prelude_rules] |]
      end ].

Section Shape.
Context `{Runtime}.

Lemma prelude_load_credentials : prelude load_credentials.
Proof.
  unfold load_credentials. apply prelude_bind; [apply prelude_ask |]. intros w.
  destruct (fs w (CREDENTIALS_FILE w)) as [[| creds] |].
  - apply prelude_lift. auto with pure.
  - apply prelude_ret.
  - unfold CREDENTIALS_HELP. apply prelude_abort.
Qed.

Lemma prelude_execute_query query variables : prelude (execute_query query variables).
Proof. pose proof prelude_load_credentials. drive prelude_rules. Qed.

Lemma prelude_get_team_id : prelude get_team_id.
Proof. pose proof prelude_load_credentials. drive prelude_rules. Qed.

Lemma prelude_lookups name names :
  prelude (get_state_id name) ∧ prelude (get_project_id name) ∧
  prelude (get_user_id name) ∧ prelude (get_label_ids names) ∧
  prelude (get_issue_with_labels name) ∧ prelude (get_issue_id name).
Proof.
  pose proof prelude_execute_query. pose proof prelude_get_team_id.
  split_and!; drive prelude_rules.
Qed.

(** Every operation reports: it prints its one document last. *)
Lemma operations_report : every_operation report.
Proof.
  pose proof prelude_execute_query. pose proof prelude_get_team_id.
  pose proof (λ n, proj1 (prelude_lookups n [])) as Hs.
  pose proof (λ n, proj1 (proj2 (prelude_lookups n []))) as Hp.
  pose proof (λ n, proj1 (proj2 (proj2 (prelude_lookups n [])))) as Hu.
  pose proof (λ ns, proj1 (proj2 (proj2 (proj2 (prelude_lookups "" ns))))) as Hl.
  pose proof (λ n, proj1 (proj2 (proj2 (proj2 (proj2 (prelude_lookups n [])))))) as Hi.
  pose proof (λ n, proj2 (proj2 (proj2 (proj2 (proj2 (prelude_lookups n [])))))) as Hk.
  unfold every_operation.
  split_and!; intros; drive report_rules.
Qed.

End Shape.

(* ===================================================================== *)
(** * What follows for a caller *)
(* ===================================================================== *)

Section Discipline.
Context `{Runtime}.

Lemma every_operation_impl (P Q : M unit → Prop) :
  (∀ m, P m → Q m) → every_operation P → every_operation Q.
Proof.
  intros HPQ (H1 & H2 & H3 & H4 & H5 & H6 & H7 & H8).
  unfold every_operation. split_and!; intros; apply HPQ; auto.
Qed.

(** [main] runs one operation, stops at a usage error, or does nothing. *)
Lemma main_cases (P : M unit → Prop) args :
  every_operation P → (∀ message, P (parser_error message)) → P (mret ()) →
  P (main args).
Proof.
  intros (Hcreate & Hupdate & Hlist & Hadd & Hremove & Hcomment & Harchive & Hget)
    Hparse Hret.
  unfold main.
  destruct (a_create args).
  { destruct (a_title args) as [title |]; [destruct (PyStr.truthy title) |];
      [apply Hcreate | apply Hparse | apply Hparse]. }
  destruct (given (a_update args)); [apply Hupdate |].
  destruct (a_list args); [apply Hlist |].
  destruct (given (a_add_labels args)).
  { destruct (negb (nonempty (label_list_of (a_labels args))));
      [apply Hparse | apply Hadd]. }
  destruct (given (a_remove_labels args)).
  { destruct (negb (nonempty (label_list_of (a_labels args))));
      [apply Hparse | apply Hremove]. }
  destruct (given (a_comment args)).
  { destruct (a_body args) as [body |]; [destruct (PyStr.truthy body) |];
      [apply Hcomment | apply Hparse | apply Hparse]. }
  destruct (given (a_archive args)); [apply Harchive |].
  destruct (given (a_get args)); [apply Hget |].
  apply Hret.
Qed.

Lemma parser_error_run {A} message w t :
  @parser_error A message w t = (Exit 2, log_err [message] t).
Proof. reflexivity. Qed.

Lemma written_grows t t' errs docs :
  grows t t' errs docs → written t' = (written t + length errs + length docs)%nat.
Proof. intros [He Hd]. unfold written. rewrite He, Hd, !length_app. lia. Qed.

Lemma report_exits_one (m : M unit) : report m → exits_one m.
Proof. intros Hm w t c t' Hrun. by destruct (Hm _ _ _ _ Hrun). Qed.

Lemma report_once (m : M unit) : report m → once m.
Proof.
  intros Hm w t o t' Hrun. specialize (Hm _ _ _ _ Hrun).
  destruct o as [a | c | e].
  - destruct Hm as (doc & _ & Hd). exists [doc]. split; [done | split; [cbn; lia | done]].
  - destruct Hm as (_ & [(errs & _ & _ & Hd) | (doc & _ & Hd)]).
    + exists []. split; [done | split; [cbn; lia | discriminate]].
    + exists [doc]. split; [done | split; [cbn; lia | discriminate]].
  - destruct Hm as [_ Hd]. exists []. split; [done | split; [cbn; lia | discriminate]].
Qed.

Lemma report_tidy (m : M unit) : report m → tidy m.
Proof.
  intros Hm w t a t' Hrun. destruct (Hm _ _ _ _ Hrun) as (doc & He & _).
  by rewrite app_nil_r in He.
Qed.

Lemma report_loud (m : M unit) : report m → loud m.
Proof.
  intros Hm w t c t' Hrun.
  destruct (Hm _ _ _ _ Hrun) as (_ & [(errs & Hne & Hg) | (doc & Hg)]);
    rewrite (written_grows _ _ _ _ Hg); [| cbn; lia].
  destruct errs; [done | cbn; lia].
Qed.

Lemma report_untouched (m : M unit) : report m → untouched m.
Proof.
  intros Hm w t e t' Hrun. destruct (Hm _ _ _ _ Hrun) as [He Hd].
  by rewrite app_nil_r in He, Hd.
Qed.

(** X1: whenever one of the eight operations ends in [sys.exit], through
    whichever lookup or failed request, the status is 1. *)
Theorem operations_exit_with_one : every_operation exits_one.
Proof. exact (every_operation_impl _ _ report_exits_one operations_report). Qed.

(** X2: an operation that returns has printed exactly one document on
    standard output, and one that does not return has printed at most one. *)
Theorem operations_print_once : every_operation once.
Proof. exact (every_operation_impl _ _ report_once operations_report). Qed.

(** X3: an operation that returns, and [main] when it returns, has written
    nothing to standard error. *)
Theorem return_leaves_stderr :
  every_operation tidy ∧ ∀ args, tidy (main args).
Proof.
  pose proof (every_operation_impl _ _ report_tidy operations_report) as Hops.
  split; [exact Hops |]. intros args. apply (main_cases tidy); [exact Hops | |].
  - intros message w t a t'. by rewrite parser_error_run.
  - by intros w t a t' [= _ <-].
Qed.

(** X4: an operation that ends in [sys.exit], and [main] when it does, has
    written a line to standard error or a document to standard output. *)
Theorem exit_is_explained :
  every_operation loud ∧ ∀ args, loud (main args).
Proof.
  pose proof (every_operation_impl _ _ report_loud operations_report) as Hops.
  split; [exact Hops |]. intros args. apply (main_cases loud); [exact Hops | |].
  - intros message w t c t'. rewrite parser_error_run. intros [= _ <-].
    rewrite (written_grows _ _ _ _ (grows_log_err t [message])). cbn. lia.
  - intros w t c t'. discriminate.
Qed.

(** X5: an operation that ends in an exception, and [main] when it does, has
    written nothing to standard output or standard error. *)
Theorem exception_writes_nothing :
  every_operation untouched ∧ ∀ args, untouched (main args).
Proof.
  pose proof (every_operation_impl _ _ report_untouched operations_report) as Hops.
  split; [exact Hops |]. intros args. apply (main_cases untouched); [exact Hops | |].
  - intros message w t e t'. by rewrite parser_error_run.
  - intros w t e t'. discriminate.
Qed.

End Discipline.

(** ** Requests *)

Lemma quiet_ret {A} (a : A) : quiet (mret a).
Proof. apply silent_quiet, silent_ret. Qed.

Lemma quiet_lift {A} (o : outcome A) : quiet (lift o).
Proof. apply silent_quiet, silent_lift. Qed.

Lemma quiet_ask : quiet ask.
Proof. by intros w t. Qed.

Ltac quiet_rules :=
  first
    [ by_hyp
    | lazymatch goal with
      | |- quiet (mret _) => apply quiet_ret
      | |- quiet (lift _) => apply quiet_lift
      | |- quiet ask => apply quiet_ask
      | |- quiet (eprint _) => apply quiet_eprint
      | |- quiet (print_json _) => apply quiet_print_json
      | |- quiet (sys_exit _) => apply quiet_sys_exit
      | |- quiet (_ ≫= _) => apply quiet_bind
      | |- quiet (for_each _ _) => apply quiet_for_each
      end ].

Lemma posts_le_quiet {A} n (m : M A) : quiet m → posts_le n m.
Proof. intros Hm w t. exists []. rewrite Hm, app_nil_r. split; [done | cbn; lia]. Qed.

Lemma posts_le_weaken {A} a b (m : M A) : posts_le a m → (a ≤ b)%nat → posts_le b m.
Proof. intros Hm Hab w t. destruct (Hm w t) as (reqs & Hp & Hl). exists reqs. split; [done | lia]. Qed.

Lemma posts_le_urlopen req : posts_le 1 (urlopen req).
Proof. intros w t. by exists [req]. Qed.

Lemma posts_le_bind {A B} a b (m : M A) (k : A → M B) :
  posts_le a m → (∀ x, posts_le b (k x)) → posts_le (a + b) (m ≫= k).
Proof.
  intros Hm Hk w t. rewrite bind_run. destruct (Hm w t) as (reqs & Hp & Hl).
  destruct (m w t) as [[x | c | e] t1]; cbn in Hp.
  - destruct (Hk x w t1) as (reqs' & Hp' & Hl'). exists (reqs ++ reqs').
    rewrite Hp', Hp, app_assoc, length_app. split; [done | lia].
  - exists reqs. split; [done | lia].
  - exists reqs. split; [done | lia].
Qed.

Lemma posts_le_bind_quiet {A B} n (m : M A) (k : A → M B) :
  quiet m → (∀ x, posts_le n (k x)) → posts_le n (m ≫= k).
Proof. intros Hm Hk. apply (posts_le_bind 0 n); [by apply posts_le_quiet | done]. Qed.

Lemma posts_le_bind_one {A B} n (m : M A) (k : A → M B) :
  posts_le 1 m → (∀ x, posts_le n (k x)) → posts_le (S n) (m ≫= k).
Proof. intros Hm Hk. by apply (posts_le_bind 1 n). Qed.

(** The fact at hand about the function the computation starts with, for a
    larger budget. *)
Ltac by_budget :=
  match goal with
  | |- posts_le _ ?m =>
      let h := head_of m in
      match goal with
      | H : _ |- _ =>
          let T := type of H in
          lazymatch T with
          | context [h] => solve [eapply posts_le_weaken; [apply H | cbn; lia]]
          end
      end
  end.

Ltac post_rules :=
  first
    [ by_budget
    | lazymatch goal with
      | |- posts_le _ (urlopen _) =>
          eapply posts_le_weaken; [apply posts_le_urlopen | cbn; lia]
      | |- posts_le _ (mret _) => apply posts_le_quiet, quiet_ret
      | |- posts_le _ (lift _) => apply posts_le_quiet, quiet_lift
      | |- posts_le _ (print_json _) => apply posts_le_quiet, quiet_print_json
      | |- posts_le _ (sys_exit _) => apply posts_le_quiet, quiet_sys_exit
      | |- posts_le _ (for_each _ _) =>
          apply posts_le_quiet, quiet_for_each; solve [drive quiet_rules]
      | |- posts_le _ (_ ≫= _) =>
          first [ apply posts_le_bind_quiet; [solve [drive quiet_rules] |]
                | apply posts_le_bind_one; [solve [drive post_rules] |] ]
      end ].

Section Budget.
Context `{Runtime}.

Lemma quiet_load_credentials : quiet load_credentials.
Proof. drive quiet_rules. Qed.

Lemma quiet_get_team_id : quiet get_team_id.
Proof. pose proof quiet_load_credentials. drive quiet_rules. Qed.

Lemma posts_le_execute_query query variables : posts_le 1 (execute_query query variables).
Proof. pose proof quiet_load_credentials. drive post_rules. Qed.

Lemma posts_le_lookups name names :
  posts_le 1 (get_state_id name) ∧ posts_le 1 (get_project_id name) ∧
  posts_le 1 (get_user_id name) ∧ posts_le 1 (get_label_ids names) ∧
  posts_le 1 (get_issue_with_labels name) ∧ posts_le 1 (get_issue_id name).
Proof.
  pose proof posts_le_execute_query. pose proof quiet_get_team_id.
  split_and!; drive post_rules.
Qed.

(** X6: the number of requests one operation sends is bounded: one for [get]
    and [list], two for [comment] and [archive], three for a change of
    labels, six for [create] and seven for [update]. *)
Theorem request_budget :
  (∀ title description priority project parent labels due_date assignee status,
     posts_le 6 (create_issue title description priority project parent labels
                   due_date assignee status)) ∧
  (∀ identifier status priority title description project parent labels due_date
     assignee,
     posts_le 7 (update_issue identifier status priority title description project
                   parent labels due_date assignee)) ∧
  (∀ status project priority label assignee limit,
     posts_le 1 (list_issues status project priority label assignee limit)) ∧
  (∀ identifier label_names, posts_le 3 (add_labels_to_issue identifier label_names)) ∧
  (∀ identifier label_names,
     posts_le 3 (remove_labels_from_issue identifier label_names)) ∧
  (∀ identifier body, posts_le 2 (add_comment identifier body)) ∧
  (∀ identifier, posts_le 2 (archive_issue identifier)) ∧
  (∀ identifier, posts_le 1 (get_issue identifier)).
Proof.
  pose proof posts_le_execute_query. pose proof quiet_get_team_id.
  pose proof (λ n, proj1 (posts_le_lookups n [])) as Hs.
  pose proof (λ n, proj1 (proj2 (posts_le_lookups n []))) as Hp.
  pose proof (λ n, proj1 (proj2 (proj2 (posts_le_lookups n [])))) as Hu.
  pose proof (λ ns, proj1 (proj2 (proj2 (proj2 (posts_le_lookups "" ns))))) as Hl.
  pose proof (λ n, proj1 (proj2 (proj2 (proj2 (proj2 (posts_le_lookups n [])))))) as Hi.
  pose proof (λ n, proj2 (proj2 (proj2 (proj2 (proj2 (posts_le_lookups n [])))))) as Hk.
  split_and!; intros; drive post_rules.
Qed.

End Budget.

(* ===================================================================== *)
(** * Without an API key *)
(* ===================================================================== *)

Lemma quiet_in_quiet {A} w (m : M A) : quiet m → quiet_in w m.
Proof. intros Hm t. apply Hm. Qed.

Lemma quiet_in_bind {A B} w (m : M A) (k : A → M B) :
  quiet_in w m → (∀ a, quiet_in w (k a)) → quiet_in w (m ≫= k).
Proof.
  intros Hm Hk t. rewrite bind_run. specialize (Hm t).
  destruct (m w t) as [[a | c | e] t1]; cbn in *; [| done | done].
  by rewrite Hk.
Qed.

Lemma quiet_in_for_each {A B} w (f : A → M B) (xs : list A) :
  (∀ x, quiet_in w (f x)) → quiet_in w (for_each f xs).
Proof.
  intros Hf. induction xs as [| x xs IH]; cbn [for_each].
  - by intros t.
  - apply quiet_in_bind; [apply Hf |]. intros y.
    apply quiet_in_bind; [apply IH |]. by intros ys t.
Qed.

Ltac quiet_in_rules :=
  first
    [ by_hyp
    | lazymatch goal with
      | |- quiet_in _ (mret _) => apply quiet_in_quiet, quiet_ret
      | |- quiet_in _ (lift _) => apply quiet_in_quiet, quiet_lift
      | |- quiet_in _ (eprint _) => apply quiet_in_quiet, quiet_eprint
      | |- quiet_in _ (print_json _) => apply quiet_in_quiet, quiet_print_json
      | |- quiet_in _ (sys_exit _) => apply quiet_in_quiet, quiet_sys_exit
      | |- quiet_in _ (_ ≫= _) => apply quiet_in_bind
      | |- quiet_in _ (for_each _ _) => apply quiet_in_for_each
      end ].

Section NoKey.
Context `{Runtime}.

Lemma execute_query_no_key w query variables :
  ¬ has_api_key w → quiet_in w (execute_query query variables).
Proof.
  intros Hno t. unfold execute_query. cbv zeta. rewrite bind_run.
  assert (Hq : quiet get_headers).
  { pose proof quiet_load_credentials. drive quiet_rules. }
  specialize (Hq w t).
  destruct (get_headers w t) as [[headers | c | e] t1] eqn:Hh; cbn in Hq; [| done | done].
  destruct Hno. unfold get_headers in Hh.
  apply bind_ret_inv in Hh as (creds & t2 & Hload & Hrest).
  apply bind_ret_inv in Hrest as (key & t3 & Hkey & _).
  apply lift_ret_inv in Hkey as [Hkey _].
  exists creds, key. split; [| done].
  destruct (fs w (CREDENTIALS_FILE w)) as [[| creds'] |] eqn:Hfs.
  - unfold load_credentials in Hload. rewrite bind_run in Hload. cbn [ask] in Hload.
    rewrite Hfs in Hload. discriminate Hload.
  - rewrite (load_credentials_found _ _ _ Hfs) in Hload. by injection Hload as -> _.
  - rewrite (load_credentials_missing _ _ Hfs) in Hload. discriminate Hload.
Qed.

(** X7: unless the credentials file holds a document with an [api_key], no
    operation sends a request. *)
Theorem no_key_no_request (w : World) :
  ¬ has_api_key w → every_operation (quiet_in w).
Proof.
  intros Hno.
  pose proof (λ q v, execute_query_no_key w q v Hno) as Hq.
  assert (Hteam : quiet_in w get_team_id) by apply quiet_in_quiet, quiet_get_team_id.
  assert (Hload : quiet_in w load_credentials)
    by apply quiet_in_quiet, quiet_load_credentials.
  unfold every_operation. split_and!; intros; drive quiet_in_rules.
Qed.

End NoKey.

Lemma no_key_no_request_witness :
  ¬ has_api_key keyless ∧
  posts (@get_issue example_runtime "EST2-42" keyless start).2 = posts start ∧
  posts (@archive_issue example_runtime "EST2-42" keyless start).2 = posts start.
Proof.
  assert (Hno : ¬ has_api_key keyless).
  { intros (creds & key & Hfs & Hkey). cbn in Hfs. injection Hfs as <-. discriminate Hkey. }
  pose proof (@no_key_no_request example_runtime keyless Hno)
    as (_ & _ & _ & _ & _ & _ & Harchive & Hget).
  split; [exact Hno |]. split; [apply Hget | apply Harchive].
Defined.

(* ===================================================================== *)
(** * Due dates *)
(* ===================================================================== *)

Lemma date_shape_chars (s : string) :
  is_date_shape s = true → Forall (λ c, date_char c = true) (String.list_ascii_of_string s).
Proof.
  unfold is_date_shape.
  destruct (String.list_ascii_of_string s) as [| y1 l]; [discriminate |].
  do 9 (destruct l as [| ?y l]; [discriminate |]).
  destruct l; [| discriminate]. intros Hs.
  apply andb_true_iff in Hs as [Hs Hd2]. apply andb_true_iff in Hs as [Hs Hd1].
  cbn [forallb] in Hs.
  repeat match type of Hs with
         | _ && _ = true => let Hc := fresh "Hc" in apply andb_true_iff in Hs as [Hc Hs]
         end.
  unfold date_char.
  repeat constructor;
    repeat match goal with Hx : _ = true |- _ => rewrite Hx; clear Hx end;
    by rewrite ?orb_true_r.
Qed.

(** X8: a due date that [validate_date] accepts is made of digits, hyphens
    and at most a newline; it holds no double quote and no backslash, the
    characters that would end or alter the string it is written into. *)
Theorem validated_date_chars (d : string) :
  validate_date d = true →
  Forall (λ c, date_char c = true) (String.list_ascii_of_string d) ∧
  (PyStr.dquote ∉ String.list_ascii_of_string d) ∧
  (PyStr.backslash ∉ String.list_ascii_of_string d).
Proof.
  intros Hd.
  assert (Hall : Forall (λ c, date_char c = true) (String.list_ascii_of_string d)).
  { rewrite validate_date_accepts in Hd. apply orb_true_iff in Hd as [Hd | Hd].
    - by apply date_shape_chars.
    - unfold is_date_shape_then_newline in Hd.
      destruct (String.list_ascii_of_string d) as [| y1 l]; [discriminate |].
      do 10 (destruct l as [| ?y l]; [discriminate |]).
      destruct l; [| discriminate].
      apply andb_true_iff in Hd as [Hd Hn].
      apply date_shape_chars in Hd. cbn in Hd.
      apply Forall_app with (l1 := [_; _; _; _; _; _; _; _; _; _]) (l2 := [_]).
      split; [exact Hd |]. constructor; [| constructor].
      unfold date_char. rewrite Hn. by rewrite orb_true_r. }
  split; [exact Hall |].
  rewrite Forall_forall in Hall.
  split; intros Hin; apply Hall in Hin; vm_compute in Hin; discriminate.
Qed.

Lemma validated_date_chars_witness :
  validate_date "2024-03-15" = true ∧
  (PyStr.dquote ∉ String.list_ascii_of_string "2024-03-15").
Proof.
  split; [reflexivity |]. exact (proj1 (proj2 (validated_date_chars "2024-03-15" eq_refl))).
Defined.

(* ===================================================================== *)
(** * Priorities given as text *)
(* ===================================================================== *)

Lemma PRIORITY_MAP_known (label : string) (n : Z) :
  PRIORITY_MAP !! label = Some n → label ∈ PRIORITY_LABELS ∧ 0 ≤ n ≤ 4.
Proof.
  unfold PRIORITY_MAP, dict_of, PRIORITY_ITEMS, PRIORITY_LABELS. cbn [foldl fst snd].
  intros Hl.
  repeat (apply lookup_insert_Some in Hl as [[<- <-] | [_ Hl]]; [split; [set_solver | lia] |]).
  by rewrite lookup_empty in Hl.
Qed.

(** X9: the number sent for a priority given as text is one of 0..4, and a
    text that is none of the five labels, whatever its case, is sent as 0,
    which reads back as [none]. *)
Theorem priority_value_default (priority : string) :
  0 ≤ priority_value priority ≤ 4 ∧
  (PyStr.lower priority ∉ PRIORITY_LABELS →
   priority_value priority = 0 ∧
   PRIORITY_DISPLAY_get (JInt (priority_value priority)) = Ret "none").
Proof.
  unfold priority_value.
  destruct (PRIORITY_MAP !! PyStr.lower priority) as [n |] eqn:Hl; cbn [default].
  - apply PRIORITY_MAP_known in Hl as [Hin Hn]. split; [exact Hn | done].
  - split; [lia |]. intros _. split; [done |]. vm_compute. reflexivity.
Qed.

(* ===================================================================== *)
(** * The list of label names *)
(* ===================================================================== *)

Lemma split_nonempty (sep : ascii) (s : string) : split sep s ≠ [].
Proof.
  destruct s as [| c s]; cbn [split]; [done |].
  case_bool_decide; [done |]. by destruct (split sep s).
Qed.

(** X10: the list of label names is empty or missing exactly when the
    [--labels] text is; any text, even a lone comma, gives names. *)
Theorem label_list_given (labels : option string) :
  nonempty (label_list_of labels) = given labels.
Proof.
  destruct labels as [s |]; [| reflexivity]. cbn [label_list_of given].
  destruct (PyStr.truthy s); [| reflexivity]. cbn [nonempty].
  pose proof (split_nonempty "," s). by destruct (split "," s).
Qed.

(* ===================================================================== *)
(** * An issue that is not there *)
(* ===================================================================== *)

Section UnknownIssue.
Context `{Runtime}.

Lemma get_issue_id_missing identifier w t result t1 :
  execute_query (issue_id_query identifier) None w t = (Ret result, t1) →
  issue_missing result →
  get_issue_id identifier w t = (Exit 1, log_err [issue_not_found identifier] t1).
Proof.
  intros Hq (issue & Hissue & Hfalse). unfold get_issue_id.
  rewrite (bind_ret _ _ _ _ _ _ Hq), bind_run. unfold lift at 1.
  rewrite Hissue, Hfalse. reflexivity.
Qed.

Lemma get_issue_with_labels_missing identifier w t result t1 :
  execute_query (issue_labels_query identifier) None w t = (Ret result, t1) →
  issue_missing result →
  get_issue_with_labels identifier w t
  = (Exit 1, log_err [issue_not_found identifier] t1).
Proof.
  intros Hq (issue & Hissue & Hfalse). unfold get_issue_with_labels.
  rewrite (bind_ret _ _ _ _ _ _ Hq), bind_run. unfold lift at 1.
  rewrite Hissue, Hfalse. reflexivity.
Qed.

(** X11: when the service answers the lookup of an issue with no issue, the
    operation on that issue ends there with status 1 and the line
    [ERROR: Issue '...' not found] on standard error: nothing is changed,
    and nothing is printed. *)
Theorem unknown_issue_stops (identifier : string) (w : World) (t t1 : Trace)
    (result : json) :
  issue_missing result →
  (execute_query (issue_id_query identifier) None w t = (Ret result, t1) →
   (∀ status priority title description project parent labels due_date assignee,
      update_issue identifier status priority title description project parent
        labels due_date assignee w t = not_found_stop identifier t1) ∧
   (∀ body, add_comment identifier body w t = not_found_stop identifier t1) ∧
   archive_issue identifier w t = not_found_stop identifier t1) ∧
  (execute_query (issue_labels_query identifier) None w t = (Ret result, t1) →
   ∀ label_names,
     add_labels_to_issue identifier label_names w t = not_found_stop identifier t1 ∧
     remove_labels_from_issue identifier label_names w t
     = not_found_stop identifier t1) ∧
  (execute_query (get_query identifier) None w t = (Ret result, t1) →
   get_issue identifier w t = not_found_stop identifier t1).
Proof.
  intros Hmiss. split_and!.
  - intros Hq. pose proof (get_issue_id_missing _ _ _ _ _ Hq Hmiss) as Hid.
    split_and!; intros;
      [unfold update_issue | unfold add_comment | unfold archive_issue];
      by rewrite (bind_exit _ _ _ _ _ _ Hid).
  - intros Hq label_names.
    pose proof (get_issue_with_labels_missing _ _ _ _ _ Hq Hmiss) as Hid.
    split; [unfold add_labels_to_issue | unfold remove_labels_from_issue];
      by rewrite (bind_exit _ _ _ _ _ _ Hid).
  - intros Hq. destruct Hmiss as (issue & Hissue & Hfalse). unfold get_issue.
    rewrite (bind_ret _ _ _ _ _ _ Hq), bind_run. unfold jget, lift at 1.
    rewrite Hissue, Hfalse. reflexivity.
Qed.

End UnknownIssue.

Lemma unknown_issue_stops_witness :
  issue_missing (JObj [("issue", JNull)]) ∧
  @archive_issue example_runtime "EST2-7" no_issue start
  = not_found_stop "EST2-7"
      (log_post (request_of (issue_id_query "EST2-7") None Example.key) start) ∧
  @get_issue example_runtime "EST2-7" no_issue start
  = not_found_stop "EST2-7"
      (log_post (request_of (get_query "EST2-7") None Example.key) start).
Proof.
  assert (Hmiss : issue_missing (JObj [("issue", JNull)])) by (by exists JNull).
  pose proof (@unknown_issue_stops example_runtime "EST2-7" no_issue start
                (log_post (request_of (issue_id_query "EST2-7") None Example.key) start)
                _ Hmiss) as (Hid & _ & _).
  pose proof (@unknown_issue_stops example_runtime "EST2-7" no_issue start
                (log_post (request_of (get_query "EST2-7") None Example.key) start)
                _ Hmiss) as (_ & _ & Hget).
  split; [exact Hmiss |]. split.
  - apply Hid. vm_compute. reflexivity.
  - apply Hget. vm_compute. reflexivity.
Defined.

(* ===================================================================== *)
(** * Blank label names *)
(* ===================================================================== *)

Lemma contains_empty (hay : string) : PyStr.contains EmptyString hay = true.
Proof. by destruct hay. Qed.

Section BlankLabel.
Context `{Runtime}.

(** X12: a label name of white space only (as a trailing comma in
    [--labels] gives) is not refused: it resolves to the first label the
    team has. *)
Theorem blank_label_takes_first (names : list string) (first : json)
    (rest : list json) (name : string) (id : json) (w : World) (t t1 : Trace) :
  get_labels w t = (Ret (JArr (first :: rest)), t1) →
  Py.item first "name" = Ret (JStr name) →
  Py.item first "id" = Ret id →
  Forall blank names →
  get_label_ids names w t = (Ret (map (λ _, id) names), t1).
Proof.
  intros Hfetch Hname Hid Hblank. unfold get_label_ids.
  rewrite (bind_ret _ _ _ _ _ _ Hfetch).
  induction Hblank as [| n names Hn _ IH]; [reflexivity |].
  cbn [for_each map]. rewrite bind_run.
  assert (Hone : get_label_id (JArr (first :: rest)) n w t1 = (Ret id, t1)).
  { unfold get_label_id. cbv zeta. rewrite bind_run. cbn [lift Py.iter].
    rewrite bind_run. unfold lift at 1. cbn [first_match].
    unfold name_contains. rewrite Hname. cbn [lower_of].
    unfold blank in Hn. rewrite Hn. cbn [PyStr.lower]. rewrite contains_empty.
    unfold lift. by rewrite Hid. }
  rewrite Hone, bind_run, IH. reflexivity.
Qed.

End BlankLabel.

Lemma blank_label_takes_first_witness :
  Forall blank ["  "; ""] ∧
  @get_label_ids example_runtime ["  "; ""] labels_world start
  = (Ret [JStr "L-bug"; JStr "L-bug"], labels_fetched).
Proof.
  assert (Hblank : Forall blank ["  "; ""]) by (repeat constructor).
  split; [exact Hblank |].
  apply (@blank_label_takes_first example_runtime ["  "; ""]
           (label_node "L-bug" "Bug") [label_node "L-urgent" "urgent"] "Bug"
           (JStr "L-bug") labels_world start labels_fetched);
    [vm_compute; reflexivity | reflexivity | reflexivity | exact Hblank].
Defined.

(* ===================================================================== *)
(** * A due date that is not accepted *)
(* ===================================================================== *)

Lemma stops_bind_l {A B} (m : M A) (k : A → M B) : stops m → stops (m ≫= k).
Proof.
  intros Hm w t b t' Hrun. apply bind_ret_inv in Hrun as (a & t1 & Hrun & _).
  by destruct (Hm w t a t1).
Qed.

Section InvalidDate.
Context `{Runtime}.

Lemma due_date_field_rejects due_date input_fields w t :
  PyStr.truthy due_date = true → validate_date due_date = false →
  field_if (Some due_date) due_date_field input_fields w t
  = (Exit 1, log_err [invalid_date due_date] t).
Proof.
  intros Hgiven Hbad. unfold field_if, due_date_field. rewrite Hgiven, Hbad.
  reflexivity.
Qed.

Lemma stops_due_date_field due_date input_fields :
  PyStr.truthy due_date = true → validate_date due_date = false →
  stops (field_if (Some due_date) due_date_field input_fields).
Proof.
  intros Hgiven Hbad w t a t'. by rewrite due_date_field_rejects.
Qed.

(** X13: with a due date that is given but not accepted, [create_issue] and
    [update_issue] never return, so no issue is reported as created or
    updated; and when no project, parent or labels are to be looked up
    first, [create_issue] sends nothing at all: it ends with status 1 and
    the line [ERROR: Invalid date format ...], whatever assignee and status
    were asked for. *)
Theorem invalid_due_date_stops (due_date : string) :
  PyStr.truthy due_date = true → validate_date due_date = false →
  (∀ title description priority project parent labels assignee status,
     stops (create_issue title description priority project parent labels
              (Some due_date) assignee status)) ∧
  (∀ identifier status priority title description project parent labels assignee,
     stops (update_issue identifier status priority title description project
              parent labels (Some due_date) assignee)) ∧
  (∀ w t team_id title description priority assignee status,
     get_team_id w t = (Ret team_id, t) →
     create_issue title description priority None None None (Some due_date)
       assignee status w t
     = (Exit 1, log_err [invalid_date due_date] t)).
Proof.
  intros Hgiven Hbad. split_and!.
  - intros. unfold create_issue. cbv zeta.
    do 6 (apply stops_bind_r; intro). apply stops_bind_l.
    by apply stops_due_date_field.
  - intros. unfold update_issue. cbv zeta.
    do 8 (apply stops_bind_r; intro). apply stops_bind_l.
    by apply stops_due_date_field.
  - intros w t team_id title description priority assignee status Hteam.
    unfold create_issue. cbv zeta. rewrite (bind_ret _ _ _ _ _ _ Hteam).
    assert (Hfield : ∀ (arg : option string) make fields w' t',
              (∀ s, ∃ f, make s = mret f) →
              ∃ fields', field_if arg make fields w' t' = (Ret fields', t')).
    { intros arg make fields w' t' Hmake. unfold field_if.
      destruct arg as [s |]; [| by eexists].
      destruct (PyStr.truthy s); [| by eexists].
      destruct (Hmake s) as [f ->]. by eexists. }
    destruct (Hfield description (text_field "description")
                ["teamId: " +:+ quoted (Py.str team_id);
                 "title: " +:+ quoted (escape_graphql title)] w t) as [f1 Hf1];
      [by eexists |].
    rewrite (bind_ret _ _ _ _ _ _ Hf1).
    destruct (Hfield priority priority_field f1 w t) as [f2 Hf2]; [by eexists |].
    rewrite (bind_ret _ _ _ _ _ _ Hf2).
    rewrite bind_run. cbn [field_if mret M_ret ret].
    rewrite bind_run. cbn [field_if mret M_ret ret].
    rewrite bind_run. cbn [labels_field mret M_ret ret].
    apply bind_exit. by apply due_date_field_rejects.
Qed.

End InvalidDate.

Lemma invalid_due_date_stops_witness :
  PyStr.truthy "15.03.2024" = true ∧ validate_date "15.03.2024" = false ∧
  @create_issue example_runtime "Fix the roof" None (Some "high") None None None
    (Some "15.03.2024") (Some "ana") (Some "Todo") knows_issue start
  = (Exit 1, log_err [invalid_date "15.03.2024"] start).
Proof.
  split; [reflexivity |]. split; [reflexivity |].
  destruct (@invalid_due_date_stops example_runtime "15.03.2024" eq_refl eq_refl)
    as (_ & _ & Hrun).
  apply (Hrun knows_issue start (JStr "team-1")). reflexivity.
Defined.

(* ===================================================================== *)
(** * No result without a request *)
(* ===================================================================== *)

Lemma steady_quiet {A} (m : M A) : quiet m → steady m.
Proof. intros Hm w t. by rewrite Hm. Qed.

Lemma steady_urlopen req : steady (urlopen req).
Proof. intros w t. cbn. rewrite length_app. lia. Qed.

Lemma steady_bind {A B} (m : M A) (k : A → M B) :
  steady m → (∀ a, steady (k a)) → steady (m ≫= k).
Proof.
  intros Hm Hk w t. rewrite bind_run. specialize (Hm w t).
  destruct (m w t) as [[a | c | e] t1]; cbn in *; [| done | done].
  specialize (Hk a w t1). lia.
Qed.

Lemma steady_for_each {A B} (f : A → M B) (xs : list A) :
  (∀ x, steady (f x)) → steady (for_each f xs).
Proof.
  intros Hf. induction xs as [| x xs IH]; cbn [for_each].
  - by intros w t.
  - apply steady_bind; [apply Hf |]. intros y.
    apply steady_bind; [apply IH |]. by intros ys w t.
Qed.

Ltac steady_rules :=
  first
    [ by_hyp
    | lazymatch goal with
      | |- steady (mret _) => apply steady_quiet, quiet_ret
      | |- steady (lift _) => apply steady_quiet, quiet_lift
      | |- steady ask => apply steady_quiet, quiet_ask
      | |- steady (eprint _) => apply steady_quiet, quiet_eprint
      | |- steady (print_json _) => apply steady_quiet, quiet_print_json
      | |- steady (sys_exit _) => apply steady_quiet, quiet_sys_exit
      | |- steady (urlopen _) => apply steady_urlopen
      | |- steady (_ ≫= _) => apply steady_bind
      | |- steady (for_each _ _) => apply steady_for_each
      end ].

Lemma asks_stops {A} (m : M A) : stops m → asks m.
Proof. intros Hm w t a t' Hrun. by destruct (Hm w t a t'). Qed.

Lemma asks_urlopen req : asks (urlopen req).
Proof. intros w t a t' [= _ <-]. cbn. rewrite length_app. cbn. lia. Qed.

Lemma asks_bind_l {A B} (m : M A) (k : A → M B) :
  asks m → (∀ a, steady (k a)) → asks (m ≫= k).
Proof.
  intros Hm Hk w t b t' Hrun. apply bind_ret_inv in Hrun as (a & t1 & Hm1 & Hk1).
  specialize (Hm _ _ _ _ Hm1). specialize (Hk a w t1). rewrite Hk1 in Hk. cbn in Hk. lia.
Qed.

Lemma asks_bind_r {A B} (m : M A) (k : A → M B) :
  steady m → (∀ a, asks (k a)) → asks (m ≫= k).
Proof.
  intros Hm Hk w t b t' Hrun. apply bind_ret_inv in Hrun as (a & t1 & Hm1 & Hk1).
  specialize (Hm w t). rewrite Hm1 in Hm. cbn in Hm. specialize (Hk _ _ _ _ _ Hk1). lia.
Qed.

(** The fact at hand that the function the computation starts with asks. *)
Ltac asks_by_hyp :=
  match goal with
  | |- asks ?m =>
      let h := head_of m in
      match goal with
      | H : context [asks] |- _ =>
          let T := type of H in
          lazymatch T with context [h] => solve [apply H] end
      end
  end.

Ltac asks_rules :=
  first
    [ asks_by_hyp
    | lazymatch goal with
      | |- asks (urlopen _) => apply asks_urlopen
      | |- asks (eprint _ ≫= _) => apply asks_stops; solve [halts]
      | |- asks (print_json _ ≫= λ _, sys_exit _) => apply asks_stops; solve [halts]
      | |- asks (?m ≫= _) =>
          first [ apply asks_bind_l; [solve [drive asks_rules] | solve [drive steady_rules]]
                | apply asks_bind_r; [solve [drive steady_rules] |] ]
      end ].

Section Asked.
Context `{Runtime}.

Lemma steady_execute_query query variables : steady (execute_query query variables).
Proof. pose proof (steady_quiet _ quiet_load_credentials). drive steady_rules. Qed.

Lemma steady_lookups name names :
  steady (get_state_id name) ∧ steady (get_project_id name) ∧
  steady (get_user_id name) ∧ steady (get_label_ids names) ∧
  steady (get_issue_with_labels name) ∧ steady (get_issue_id name).
Proof.
  pose proof steady_execute_query. pose proof (steady_quiet _ quiet_get_team_id).
  split_and!; drive steady_rules.
Qed.

Lemma asks_execute_query query variables : asks (execute_query query variables).
Proof.
  intros w t a t' Hrun.
  apply execute_query_ret_inv in Hrun as (creds & key & _ & _ & ->).
  cbn. rewrite length_app. cbn. lia.
Qed.

Lemma asks_issue_lookups identifier :
  asks (get_issue_id identifier) ∧ asks (get_issue_with_labels identifier).
Proof.
  pose proof asks_execute_query.
  split; (apply asks_bind_l; [by_hyp |]); drive steady_rules.
Qed.

(** X14: an operation that returns has sent at least one request: no
    result is printed that was not asked of the service. *)
Theorem result_was_asked : every_operation asks.
Proof.
  pose proof steady_execute_query as Hsq. pose proof asks_execute_query as Haq.
  pose proof (steady_quiet _ quiet_get_team_id) as Hst.
  pose proof (λ n, proj1 (steady_lookups n [])) as Hs.
  pose proof (λ n, proj1 (proj2 (steady_lookups n []))) as Hp.
  pose proof (λ n, proj1 (proj2 (proj2 (steady_lookups n [])))) as Hu.
  pose proof (λ ns, proj1 (proj2 (proj2 (proj2 (steady_lookups "" ns))))) as Hl.
  pose proof (λ n, proj1 (proj2 (proj2 (proj2 (proj2 (steady_lookups n [])))))) as Hi.
  pose proof (λ n, proj2 (proj2 (proj2 (proj2 (proj2 (steady_lookups n [])))))) as Hk.
  pose proof (λ n, proj1 (asks_issue_lookups n)) as Hai.
  pose proof (λ n, proj2 (asks_issue_lookups n)) as Hal.
  unfold every_operation.
  split_and!; intros; drive asks_rules.
Qed.

End Asked.
